(** * spectralLES: a pseudo-spectral large-eddy-simulation solver

    Shallow embedding of [spectralLES/spectralLES.py] and the properties
    of its filter kernels, source terms, projection, time-step estimate
    and Runge-Kutta driver.

    Conventions of the embedding.

    - IEEE doubles are idealised as real numbers ([R]); a complex double
      is a pair of reals.  Rounding, infinities and not-a-number values
      are not modelled.  Where the source divides, the model divides in
      [R]; every statement about a quotient either assumes the divisor
      non-zero or talks about numerator and denominator separately.
    - A numpy array is a function from a grid index to its entry.  The
      index is the global one: rank [r] of the communicator stores the
      entries of its slab, the transforms and the reductions are
      collective and see the whole distributed array.
    - Instance attributes that are rebound or written in place after
      construction live in three small stores, keyed by the attribute
      name ([U_hat], [dU], [omga], [A], ...).
    - Python exceptions are values of [exn]; a method that can raise
      returns an [outcome]. *)

From stdpp Require Import gmap strings.
From Stdlib Require Import Reals Lra Lia ZArith FunctionalExtensionality.

Local Open Scope R_scope.

(** ** Exceptions and results *)

Inductive exn : Type :=
| IndexError (msg : string)
| ValueError (msg : string)
| AttributeError (name : string)
| TypeError (msg : string)
| KeyError (key : string).

Inductive outcome (T : Type) : Type :=
| Ok (v : T)
| Raise (e : exn).

Arguments Ok {T} v.
Arguments Raise {T} e.

Definition bind {T V : Type} (m : outcome T) (k : T -> outcome V) : outcome V :=
  match m with
  | Ok v => k v
  | Raise e => Raise e
  end.

Notation "'let!' x := m 'in' k" := (bind m (fun x => k))
  (at level 10, x name, m at level 100, k at level 200).

(** ** Complex doubles *)

Definition complex : Type := R * R.

Definition RtoC (x : R) : complex := (x, 0).
Definition ZtoC (k : Z) : complex := (IZR k, 0).
Definition Cj : complex := (0, 1).
Definition Cadd (a b : complex) : complex := (fst a + fst b, snd a + snd b).
Definition Csub (a b : complex) : complex := (fst a - fst b, snd a - snd b).
Definition Cmul (a b : complex) : complex :=
  (fst a * fst b - snd a * snd b, fst a * snd b + snd a * fst b).
Definition Cscale (x : R) (a : complex) : complex := (x * fst a, x * snd a).
Definition Cinv (a : complex) : complex :=
  (fst a / (fst a * fst a + snd a * snd a),
   - snd a / (fst a * fst a + snd a * snd a)).
Definition Cimag (a : complex) : R := snd a.

(** [max] of two complex scalars, as numpy orders them: by real part,
    then by imaginary part. *)
Definition Cmax (a b : complex) : complex :=
  if Rlt_dec (fst a) (fst b) then b
  else if Rlt_dec (fst b) (fst a) then a
  else if Rlt_dec (snd a) (snd b) then b else a.

(** ** Arrays *)

Definition idx : Type := nat * nat * nat.
Definition rarr : Type := idx -> R.
Definition carr : Type := idx -> complex.
Definition iarr : Type := idx -> Z.

(** A vector field [(3, n0, n1, n2)] and a tensor field [(3, 3, ...)]. *)
Definition rvector : Type := nat -> rarr.
Definition cvector : Type := nat -> carr.
Definition tensor : Type := nat -> nat -> rarr.

(** [v[i] = a], leaving the other components. *)
Definition upd {T : Type} (v : nat -> T) (i : nat) (a : T) : nat -> T :=
  fun j => if Nat.eqb j i then a else v j.

(** [np.sum(..., axis=0)] over an axis of length three. *)
Definition sum3 (f : nat -> R) : R := f 0%nat + f 1%nat + f 2%nat.
Definition csum3 (f : nat -> complex) : complex :=
  Cadd (Cadd (f 0%nat) (f 1%nat)) (f 2%nat).

(** [np.sum(..., axis=(0, 1))] over the nine entries of a tensor. *)
Definition sum33 (f : nat -> nat -> R) : R :=
  sum3 (fun i => sum3 (fun j => f i j)).

(** The three-component arrays [nx], [L], [dx], ... *)
Definition of_list3 {T : Type} (d : T) (l : list T) : nat -> T :=
  fun i => nth i l d.

Definition min3 (v : nat -> R) : R := Rmin (v 0%nat) (Rmin (v 1%nat) (v 2%nat)).
Definition prod3 (v : nat -> R) : R := v 0%nat * v 1%nat * v 2%nat.
Definition zmin3 (v : nat -> Z) : Z := Z.min (v 0%nat) (Z.min (v 1%nat) (v 2%nat)).

(** Indices of the box [lo0 <= i < lo0 + n0, j < n1, k < n2], in row-major
    order. *)
Definition box (lo0 n0 n1 n2 : nat) : list idx :=
  i ← seq lo0 n0; j ← seq 0 n1; k ← seq 0 n2; [(i, j, k)].

(** ** The communicator *)

Record Comm : Type := { comm_size : nat; comm_rank : nat }.

(** Modelled from the spec: [psum] of [teslacu.stats], the sum of the
    entries of the local part of an array ("global sum-of-squares
    reduction" once combined with [allreduce]). *)
Definition psum (a : rarr) (pts : list idx) : R :=
  fold_right (fun p acc => a p + acc) 0 pts.

(** [comm.allreduce(v)] with the default [MPI.SUM]: [v r] is the
    contribution of rank [r]. *)
Definition allreduce_SUM (size : nat) (v : nat -> R) : R :=
  fold_right (fun r acc => v r + acc) 0 (seq 0 size).

(** [np.max] over the local part of an array; numpy raises on a
    zero-size array. *)
Definition np_max (a : rarr) (pts : list idx) : outcome R :=
  match pts with
  | [] => Raise (ValueError "zero-size array to reduction operation maximum which has no identity")
  | p :: rest => Ok (fold_left (fun m q => Rmax m (a q)) rest (a p))
  end.

(** [np.mean] over the local part of an array. *)
Definition np_mean (a : rarr) (pts : list idx) : R :=
  psum a pts / INR (length pts).

(** [comm.allreduce(v, op=MPI.MAX)] over the ranks [0 .. size-1]. *)
Definition allreduce_MAX (size : nat) (v : nat -> R) : R :=
  fold_left (fun m r => Rmax m (v r)) (seq 1 (size - 1)) (v 0%nat).

Definition allreduce_MAX_complex (size : nat) (v : nat -> complex) : complex :=
  fold_left (fun m r => Cmax m (v r)) (seq 1 (size - 1)) (v 0%nat).

(** ** Grid geometry (the first half of [__init__]) *)

(** A constructor argument that may be a scalar or an iterable. *)
Inductive pyarg (T : Type) : Type :=
| Scalar (x : T)
| Iterable (l : list T).

Arguments Scalar {T} x.
Arguments Iterable {T} l.

(** The [if np.iterable(v): ... else: ...] block applied to [nx] and to
    [L]: a scalar and a one-element iterable are replicated, a
    three-element iterable is taken as it is, anything else raises. *)
Definition three {T : Type} (name : string) (v : pyarg T) : outcome (list T) :=
  match v with
  | Iterable l =>
      if Nat.eqb (length l) 1 then Ok (l ++ l ++ l)
      else if Nat.eqb (length l) 3 then Ok l
      else Raise (IndexError ("The length of " +:+ name +:+ " must be either 1 or 3"))
  | Scalar x => Ok [x; x; x]
  end.

(** [np.fft.fftfreq(n)*n] and [np.fft.rfftfreq(n)*n] at position [i]. *)
Definition fftfreq_n (n : Z) (i : nat) : Z :=
  if (Z.of_nat i <? (n - 1) / 2 + 1)%Z then Z.of_nat i else (Z.of_nat i - n)%Z.
Definition rfftfreq_n (n : Z) (i : nat) : Z := Z.of_nat i.

Definition coord (a : nat) (p : idx) : nat :=
  match a with
  | 0%nat => fst (fst p)
  | 1%nat => snd (fst p)
  | _ => snd p
  end.

Record Geometry : Type := {
  comm : Comm;
  nx : nat -> Z;
  L : nat -> R;
  nu : R;
  dx : nat -> R;
  Nx : Z;
  Nxinv : R;
  nk : nat -> Z;
  dk : nat -> R;
  nnx : nat -> Z;
  ixs : nat -> Z;
  ixe : nat -> Z;
  X : rvector;
  nnk : nat -> Z;
  iks : nat -> Z;
  ike : nat -> Z;
  K : nat -> iarr;
  Ksq : iarr;
  K_Ksq : rvector
}.

(** [self.Ksq = np.sum(np.square(self.K), axis=0)] *)
Definition make_Ksq (K : nat -> iarr) : iarr :=
  fun p => (K 0%nat p * K 0%nat p + K 1%nat p * K 1%nat p + K 2%nat p * K 2%nat p)%Z.

(** [self.K_Ksq = K.astype(float)/np.where(Ksq==0, 1, Ksq).astype(float)] *)
Definition make_K_Ksq (K : nat -> iarr) : rvector :=
  fun a p => IZR (K a p) / IZR (if (make_Ksq K p =? 0)%Z then 1 else make_Ksq K p).

Definition make_geometry (comm : Comm) (nx : nat -> Z) (L : nat -> R) (nu : R)
  : Geometry :=
  let size := Z.of_nat (comm_size comm) in
  let rank := Z.of_nat (comm_rank comm) in
  let dx := fun i => L i / IZR (nx i) in
  let Nx := (nx 0%nat * nx 1%nat * nx 2%nat)%Z in
  let nk := upd nx 2 (nx 2%nat / 2 + 1)%Z in
  let nnx := upd nx 0 (nx 0%nat / size)%Z in
  let ixs := upd (fun _ => 0%Z) 0 (nnx 0%nat * rank)%Z in
  let ixe := upd nx 0 (ixs 0%nat + nnx 0%nat)%Z in
  let nnk := upd nk 1 (nx 1%nat / size)%Z in
  let iks := upd (fun _ => 0%Z) 1 (nnk 1%nat * rank)%Z in
  let ike := fun i => (iks i + nnk i)%Z in
  let k1 := rfftfreq_n (nx 2%nat) in
  let k2 := fftfreq_n (nx 1%nat) in
  let k3 := fftfreq_n (nx 0%nat) in
  let K := fun (a : nat) (p : idx) =>
             match a with
             | 0%nat => k3 (coord 0 p)
             | 1%nat => k2 (coord 1 p)
             | _ => k1 (coord 2 p)
             end in
  {| comm := comm; nx := nx; L := L; nu := nu;
     dx := dx; Nx := Nx; Nxinv := 1 / IZR Nx;
     nk := nk; dk := fun i => 1 / L i;
     nnx := nnx; ixs := ixs; ixe := ixe;
     X := fun a p => INR (coord a p) * dx a;
     nnk := nnk; iks := iks; ike := ike;
     K := K; Ksq := make_Ksq K; K_Ksq := make_K_Ksq K |}.

(** The local physical subdomain of rank [r]: [nnx[0]] planes starting at
    [nnx[0]*r], and the first mode of its spectral slab
    ([Ghat[0, 0, 0]] on that rank). *)
Definition slab (g : Geometry) (r : nat) : list idx :=
  box (Z.to_nat (nnx g 0%nat) * r) (Z.to_nat (nnx g 0%nat))
      (Z.to_nat (nnx g 1%nat)) (Z.to_nat (nnx g 2%nat)).

Definition first_mode (g : Geometry) (r : nat) : idx :=
  (0%nat, (Z.to_nat (nnk g 1%nat) * r)%nat, 0%nat).

(** Rank owning the physical point [p]. *)
Definition owner (g : Geometry) (p : idx) : nat :=
  (coord 0 p / Z.to_nat (nnx g 0%nat))%nat.

(** [comm.allreduce(psum(a))] for a scalar array and for the three
    components of a vector. *)
Definition global_sum (g : Geometry) (a : rarr) : R :=
  allreduce_SUM (comm_size (comm g)) (fun r => psum a (slab g r)).

Definition global_sum3 (g : Geometry) (v : rvector) : R :=
  allreduce_SUM (comm_size (comm g))
    (fun r => psum (v 0%nat) (slab g r) + psum (v 1%nat) (slab g r)
              + psum (v 2%nat) (slab g r)).

(** [comm.allreduce(np.max(a), op=MPI.MAX)]; all slabs have the same
    shape, so all ranks raise or none does. *)
Definition global_max (g : Geometry) (a : rarr) : outcome R :=
  let! _ := np_max a (slab g 0) in
  Ok (allreduce_MAX (comm_size (comm g))
        (fun r => match np_max a (slab g r) with Ok m => m | Raise _ => 0 end)).

(** ** Attribute stores *)

(** Spectral vector fields [(3, nz, nny, nk)] of the instance. *)
Inductive cattr : Type := U_hat | U_hat_test | U_hat0 | U_hat1 | S_hat | dU.

(** Physical vector fields [(3, nnz, ny, nx)]. *)
Inductive rattr : Type := U | U_test | omga.

(** Tensor memory [(3, 3, nnz, ny, nx)]; [R_] is the attribute [self.R]. *)
Inductive tattr : Type := A | R_ | S_mod_S_ij_les | L_dyn | M_dyn.

Definition cattr_eqb (a b : cattr) : bool :=
  match a, b with
  | U_hat, U_hat | U_hat_test, U_hat_test | U_hat0, U_hat0
  | U_hat1, U_hat1 | S_hat, S_hat | dU, dU => true
  | _, _ => false
  end.

Definition rattr_eqb (a b : rattr) : bool :=
  match a, b with
  | U, U | U_test, U_test | omga, omga => true
  | _, _ => false
  end.

Definition tattr_eqb (a b : tattr) : bool :=
  match a, b with
  | A, A | R_, R_ | S_mod_S_ij_les, S_mod_S_ij_les | L_dyn, L_dyn
  | M_dyn, M_dyn => true
  | _, _ => false
  end.

(** Keyword arguments handed to the source terms. *)
Inductive pyval : Type :=
| PyNone
| PyInt (z : Z)
| PyFloat (x : R)
| PyStr (s : string).

(** ** External collaborators

    [rfft3] and [irfft3] are the distributed transforms of [teslacu.fft],
    acting on a whole distributed array; [np.random] is numpy's global
    generator, [rng_state] its state. *)

Class Collaborators : Type := {
  rfft3 : rarr -> carr;
  irfft3 : carr -> rarr;
  rng_state : Type;
  np_random_seed : Z -> rng_state;
  np_random_rand : rng_state -> rvector * rng_state;
  np_random_randn : rng_state -> rvector * rng_state
}.

Section Solver.

Context {E : Collaborators}.

(** *** Filter kernels *)

(** [kmag = np.sqrt(np.sum(np.square(K.astype(float)/A), axis=0))] with
    [A = L/L.min()], the domain aspect ratios. *)
Definition kmag (self : Geometry) : rarr :=
  fun p => sqrt (sum3 (fun a => (IZR (K self a p) / (L self a / min3 (L self))) ^ 2)).

(** Numerator and denominator of the [tophat] transfer function
    [np.sin(pi*k_kf)/(pi*k_kf**2)]. *)
Definition tophat_numer (k : R) : R := sin (PI * k).
Definition tophat_denom (k : R) : R := PI * k ^ 2.

Definition comp_exp_template (k : R) : R :=
  if Rlt_dec k 0.5 then exp (- k ^ 2 / (0.25 - k ^ 2)) else 0.

Definition spectral_cutoff (k : R) : R :=
  if Rlt_dec (Rabs k) 1 then 1 else 0.

Definition filter_kernel (self : Geometry) (kf : R) (Gtype : string)
    (k_kf : option rarr) : outcome carr :=
  let k_kf := match k_kf with
              | None => fun p => kmag self p / kf
              | Some k => k
              end in
  if String.eqb Gtype "tophat" then
    Ok (fun p => RtoC (tophat_numer (k_kf p) / tophat_denom (k_kf p)))
  else if String.eqb Gtype "comp_exp" then
    let Ghat : carr := fun p => RtoC (comp_exp_template (k_kf p)) in
    let G := irfft3 Ghat in
    let G : rarr := fun x => G x * G x in
    let Ghat := rfft3 G in
    let top := allreduce_MAX_complex (comm_size (comm self))
                 (fun r => Ghat (first_mode self r)) in
    let Ghat : carr := fun p => Cmul (Ghat p) (Cmul (RtoC 1) (Cinv top)) in
    Ok (fun p => Csub (Ghat p) (Cmul Cj (RtoC (Cimag (Ghat p)))))
  else if String.eqb Gtype "spectral" then
    Ok (fun p => RtoC (spectral_cutoff (k_kf p)))
  else
    Raise (ValueError "did not understand filter type").

(** *** The instance *)

Record state : Type := {
  geom :> Geometry;
  les_scale : R;
  les_filter : carr;
  test_scale : R;
  test_filter : carr;
  forcing_filter : carr;
  forcing_rate : option R;
  C : nat -> R;
  D : R;
  D_test : R;
  smag_coef : R;
  nuTmax : R;
  rvec : rattr -> rvector;
  cvec : cattr -> cvector;
  tens : tattr -> tensor;
  np_random : rng_state
}.

(** In-place writes and rebindings of the mutable attributes. *)
Definition set_rvec (self : state) (a : rattr) (v : rvector) : state :=
  {| geom := geom self; les_scale := les_scale self;
     les_filter := les_filter self; test_scale := test_scale self;
     test_filter := test_filter self; forcing_filter := forcing_filter self;
     forcing_rate := forcing_rate self; C := C self; D := D self;
     D_test := D_test self; smag_coef := smag_coef self;
     nuTmax := nuTmax self;
     rvec := fun b => if rattr_eqb b a then v else rvec self b;
     cvec := cvec self; tens := tens self; np_random := np_random self |}.

Definition set_cvec (self : state) (a : cattr) (v : cvector) : state :=
  {| geom := geom self; les_scale := les_scale self;
     les_filter := les_filter self; test_scale := test_scale self;
     test_filter := test_filter self; forcing_filter := forcing_filter self;
     forcing_rate := forcing_rate self; C := C self; D := D self;
     D_test := D_test self; smag_coef := smag_coef self;
     nuTmax := nuTmax self;
     rvec := rvec self;
     cvec := fun b => if cattr_eqb b a then v else cvec self b;
     tens := tens self; np_random := np_random self |}.

Definition set_tens (self : state) (a : tattr) (v : tensor) : state :=
  {| geom := geom self; les_scale := les_scale self;
     les_filter := les_filter self; test_scale := test_scale self;
     test_filter := test_filter self; forcing_filter := forcing_filter self;
     forcing_rate := forcing_rate self; C := C self; D := D self;
     D_test := D_test self; smag_coef := smag_coef self;
     nuTmax := nuTmax self;
     rvec := rvec self; cvec := cvec self;
     tens := fun b => if tattr_eqb b a then v else tens self b;
     np_random := np_random self |}.

Definition set_nuTmax (self : state) (v : R) : state :=
  {| geom := geom self; les_scale := les_scale self;
     les_filter := les_filter self; test_scale := test_scale self;
     test_filter := test_filter self; forcing_filter := forcing_filter self;
     forcing_rate := forcing_rate self; C := C self; D := D self;
     D_test := D_test self; smag_coef := smag_coef self;
     nuTmax := v;
     rvec := rvec self; cvec := cvec self; tens := tens self;
     np_random := np_random self |}.

Definition set_np_random (self : state) (s : rng_state) : state :=
  {| geom := geom self; les_scale := les_scale self;
     les_filter := les_filter self; test_scale := test_scale self;
     test_filter := test_filter self; forcing_filter := forcing_filter self;
     forcing_rate := forcing_rate self; C := C self; D := D self;
     D_test := D_test self; smag_coef := smag_coef self;
     nuTmax := nuTmax self;
     rvec := rvec self; cvec := cvec self; tens := tens self;
     np_random := s |}.

(** Contents of the arrays that [__init__] allocates with [np.empty]. *)
Record uninitialised : Type := {
  empty_rvec : rattr -> rvector;
  empty_cvec : cattr -> cvector;
  empty_tens : tattr -> tensor
}.

Definition __init__ (comm : Comm) (L_arg : pyarg R) (nx_arg : pyarg Z) (nu : R)
    (Gtype : string) (les_scale test_scale eps_inj : option R)
    (mem : uninitialised) (rng : rng_state) : outcome state :=
  let! nx3 := three "nx" nx_arg in
  let! L3 := three "L" L_arg in
  let g := make_geometry comm (of_list3 0%Z nx3) (of_list3 0 L3) nu in
  let les_scale :=
    match les_scale with
    | None => IZR (Int_part (sqrt 2 * IZR (zmin3 (nx g)) / 3))
    | Some s => s
    end in
  let! les_filter := filter_kernel g les_scale Gtype None in
  let test_scale :=
    match test_scale with
    | None => IZR (Int_part (0.5 * les_scale))
    | Some s => s
    end in
  let! test_filter := filter_kernel g test_scale Gtype None in
  let Ck := 1.6 in
  let Cs := sqrt (Rpower PI (-2) * Rpower (3 * Ck) (-1.5)) in
  let D := min3 (L g) / les_scale in
  Ok {| geom := g;
        les_scale := les_scale; les_filter := les_filter;
        test_scale := test_scale; test_filter := test_filter;
        forcing_filter := fun _ => RtoC 1;
        forcing_rate := eps_inj;
        C := of_list3 0 [0.23500012323837638; -0.11000005245050457;
                         0.04499961517244655];
        D := D;
        D_test := min3 (L g) / test_scale;
        smag_coef := 2.0 * (Cs * D) ^ 2;
        nuTmax := 0.0;
        rvec := empty_rvec mem;
        cvec := fun a => match a with
                         | S_hat => fun _ _ => RtoC 0
                         | _ => empty_cvec mem a
                         end;
        tens := empty_tens mem;
        np_random := rng |}.

(** *** Initial conditions and the random spectrum *)

(** [F -= np.sum(F*self.K_Ksq, axis=0)*self.K], the Leray-Hopf
    projection used by the initialiser and by the integrator. *)
Definition project (K : nat -> iarr) (K_Ksq : rvector) (F : cvector) : cvector :=
  fun a p =>
    Csub (F a p)
         (Cscale (IZR (K a p)) (csum3 (fun b => Cscale (K_Ksq b p) (F b p)))).

Definition Initialize_Taylor_Green_vortex (self : state) : state :=
  let X := X self in
  let U' : rvector := fun i x =>
    match i with
    | 0%nat => sin (X 0%nat x) * cos (X 1%nat x) * cos (X 2%nat x)
    | 1%nat => - cos (X 0%nat x) * sin (X 1%nat x) * cos (X 2%nat x)
    | _ => 0.0
    end in
  let self := set_rvec self U U' in
  set_cvec self U_hat (fun i => rfft3 (U' i)).

Definition get_random_HIT_spectrum (self : state) (k_exp k_peak : R)
    (rseed : pyval) : state :=
  let rng := match rseed with
             | PyInt z => if (0 <? z)%Z then np_random_seed z else np_random self
             | _ => np_random self
             end in
  let (q1, rng) := np_random_rand rng in
  let (q2, rng) := np_random_randn rng in
  let S : cvector := fun i p =>
    Cscale (q2 i p)
      (Cadd (RtoC (cos (2 * PI * q1 i p))) (Cmul Cj (RtoC (sin (2 * PI * q1 i p))))) in
  let kmag := kmag self in
  let S : cvector := fun i p =>
    Cscale (if Rlt_dec (kmag p) 1.0 then 0.0 else Rpower (kmag p) (k_exp - 1.0))
           (S i p) in
  let S : cvector := fun i p =>
    Cmul (S i p) (Cscale (exp (- kmag p / k_peak)) (les_filter self p)) in
  set_cvec (set_np_random self rng) S_hat S.

Definition Initialize_HIT_random_spectrum (self : state) (Urms k_exp k_peak : R)
    (rseed : pyval) : state :=
  let self := get_random_HIT_spectrum self k_exp k_peak rseed in
  let S := project (K self) (K_Ksq self) (cvec self S_hat) in
  let self := set_cvec self S_hat S in
  let U' : rvector := fun i => irfft3 (S i) in
  let scale :=
    Urms * sqrt (IZR (Nx self)
                 / global_sum3 self (fun i x => U' i x ^ 2)) in
  let U' : rvector := fun i x => U' i x * scale in
  let self := set_rvec self U U' in
  set_cvec self U_hat (fun i => rfft3 (U' i)).

(** *** Forcing source terms *)

(** [forcing_rate/(comm.allreduce(psum(omga*U))*dx.prod())]; dividing
    [None] raises. *)
Definition dvScale (self : state) (candidate : rvector) : outcome R :=
  match forcing_rate self with
  | None => Raise (TypeError "unsupported operand type(s) for /: 'NoneType' and 'float'")
  | Some rate =>
      Ok (rate / (global_sum3 self (fun i x => candidate i x * rvec self U i x)
                  * prod3 (dx self)))
  end.

Definition computeSource_HIT_random_forcing (self : state)
    (kwargs : gmap string pyval) : outcome state :=
  match kwargs !! "random_seed" with
  | None => Raise (KeyError "random_seed")
  | Some rseed =>
      let self := get_random_HIT_spectrum self (-5 / 3) (IZR (nk self 2%nat)) rseed in
      let S : cvector := fun i p => Cmul (cvec self S_hat i p) (forcing_filter self p) in
      let self := set_cvec self S_hat S in
      let self := set_rvec self omga (fun i => irfft3 (S i)) in
      let! dv := dvScale self (rvec self omga) in
      Ok (set_cvec self dU
            (fun i p => Cadd (cvec self dU i p) (Cscale dv (S i p))))
  end.

Definition computeSource_HIT_linear_forcing (self : state)
    (kwargs : gmap string pyval) : outcome state :=
  let S : cvector := fun i p => Cmul (cvec self U_hat i p) (forcing_filter self p) in
  let self := set_cvec self S_hat S in
  let self := set_rvec self omga (fun i => irfft3 (S i)) in
  let! dv := dvScale self (rvec self omga) in
  let S : cvector := fun i p => Cscale dv (S i p) in
  let self := set_cvec self S_hat S in
  Ok (set_cvec self dU (fun i p => Cadd (cvec self dU i p) (S i p))).

(** *** Filtering a physical array *)

(** The kernel that [self.filter_kernel(scale_k, 'spectral')] returns
    (see [filter_kernel_spectral]). *)
Definition spectral_kernel (self : Geometry) (kf : R) : carr :=
  fun p => RtoC (spectral_cutoff (kmag self p / kf)).

(** The array that [filter_3D_array(array, scale_k)] computes and
    returns. *)
Definition filter_3D_array_value (self : state) (array : rarr) (scale_k : R)
    : rarr :=
  let fft_array := rfft3 array in
  let fft_filtered : carr :=
    if Req_dec_T scale_k (les_scale self) then
      fun p => Cmul (fft_array p) (les_filter self p)
    else if Req_dec_T scale_k (test_scale self) then
      fun p => Cmul (fft_array p) (test_filter self p)
    else
      fun p => Cmul (fft_array p) (spectral_kernel self scale_k p) in
  irfft3 fft_filtered.

(** *** Subgrid-scale source terms *)

(** [0.5*irfft3(comm, 1j*(K[2-j]*W[i] + s*K[2-i]*W[j]))], stored at
    [[j, i]]: the rate of strain for [s = 1], the rate of rotation for
    [s = -1]. *)
Definition velocity_gradient (self : Geometry) (s : R) (W : cvector) : tensor :=
  fun j i =>
    let spec : carr := fun p =>
      Cmul Cj (Cadd (Cscale (IZR (K self (2 - j)%nat p)) (W i p))
                    (Cscale (s * IZR (K self (2 - i)%nat p)) (W j p))) in
    fun x => 0.5 * irfft3 spec x.

(** [S_hat[:] = 0.0] followed by [S_hat[i] += term i j] for
    [j = 0, 1, 2]. *)
Definition accumulate (term : nat -> nat -> carr) : cvector :=
  fun i p =>
    Cadd (Cadd (Cadd (RtoC 0.0) (term i 0%nat p)) (term i 1%nat p)) (term i 2%nat p).

(** [1j*K[2-j]*rfft3(comm, T)] *)
Definition divergence_term (self : Geometry) (j : nat) (T : rarr) : carr :=
  fun p => Cmul (Cscale (IZR (K self (2 - j)%nat p)) Cj) (rfft3 T p).

Definition add_to_dU (self : state) (S : cvector) : state :=
  let self := set_cvec self S_hat S in
  set_cvec self dU (fun i p => Cadd (cvec self dU i p) (S i p)).

Definition computeSource_Smagorinksy_SGS (self : state)
    (kwargs : gmap string pyval) : outcome state :=
  let A' := velocity_gradient self 1 (cvec self U_hat) in
  let self := set_tens self A A' in
  let nuT2 : rarr := fun x => sqrt (2.0 * sum33 (fun a b => A' a b x ^ 2)) in
  let nuT2 : rarr := fun x => nuT2 x * smag_coef self in
  let self := set_rvec self omga (upd (rvec self omga) 0 nuT2) in
  let! m := global_max self nuT2 in
  let self := set_nuTmax self m in
  Ok (add_to_dU self
        (accumulate (fun i j =>
           divergence_term self j (fun x => A' j i x * nuT2 x)))).

Definition computeSourse_NonlinearModel_SGS (self : state)
    (kwargs : gmap string pyval) : outcome state :=
  if bool_decide (kwargs = ∅) then
    let A' := velocity_gradient self 1 (cvec self U_hat) in
    let self := set_tens self A A' in
    let S_S_invar : rarr := fun x => sum33 (fun a b => A' a b x ^ 2) in
    let R' := velocity_gradient self (-1) (cvec self U_hat) in
    let self := set_tens self R_ R' in
    let tensor1 : tensor := fun i j x => A' i j x * sqrt (2.0 * S_S_invar x) in
    let self := set_tens self S_mod_S_ij_les tensor1 in
    let tensor2 : tensor := fun i j x =>
      0 + (A' i 0%nat x * R' 0%nat j x - R' i 0%nat x * A' 0%nat j x)
        + (A' i 1%nat x * R' 1%nat j x - R' i 1%nat x * A' 1%nat j x)
        + (A' i 2%nat x * R' 2%nat j x - R' i 2%nat x * A' 2%nat j x) in
    let tensor3 : tensor := fun i j x =>
      let t := 0 + A' i 0%nat x * A' 0%nat j x + A' i 1%nat x * A' 1%nat j x
                 + A' i 2%nat x * A' 2%nat j x in
      if Nat.eqb i j then t - 1 / 3 * S_S_invar x else t in
    Ok (add_to_dU self
          (accumulate (fun i j =>
             divergence_term self j
               (fun x => - D self ^ 2
                         * (-2 * C self 0%nat ^ 2 * tensor1 j i x
                            + C self 1%nat * tensor2 j i x
                            + C self 2%nat * tensor3 j i x)))))
  else
    Raise (TypeError "computeSourse_NonlinearModel_SGS() got an unexpected keyword argument").

(** The coefficient block of the dynamic model, as rank [r] runs it:
    [L_M] and [M_M] are contracted point by point, then
    [C_s_sqr = np.divide(np.mean(L_M), np.mean(M_M))]. *)
Definition contract (P Q : tensor) : rarr :=
  fun x =>
    0 + P 0%nat 0%nat x * Q 0%nat 0%nat x + P 0%nat 1%nat x * Q 0%nat 1%nat x
      + P 0%nat 2%nat x * Q 0%nat 2%nat x
      + P 1%nat 0%nat x * Q 1%nat 0%nat x + P 1%nat 1%nat x * Q 1%nat 1%nat x
      + P 1%nat 2%nat x * Q 1%nat 2%nat x
      + P 2%nat 0%nat x * Q 2%nat 0%nat x + P 2%nat 1%nat x * Q 2%nat 1%nat x
      + P 2%nat 2%nat x * Q 2%nat 2%nat x.

Definition C_s_sqr (self : Geometry) (L_dyn' M_dyn' : tensor) (r : nat) : R :=
  let L_M := contract L_dyn' M_dyn' in
  let M_M := contract M_dyn' M_dyn' in
  let l_m := np_mean L_M (slab self r) in
  let m_m := np_mean M_M (slab self r) in
  l_m / m_m.

Definition computeSource_DynamicSmagorinksy_SGS (self : state)
    (kwargs : gmap string pyval) : outcome state :=
  let U' : rvector := fun i => irfft3 (cvec self U_hat i) in
  let self := set_rvec self U U' in
  let Ut_hat : cvector := fun i p => Cmul (cvec self U_hat i p) (test_filter self p) in
  let self := set_cvec self U_hat_test Ut_hat in
  let Ut : rvector := fun i => irfft3 (Ut_hat i) in
  let self := set_rvec self U_test Ut in
  let A_les := velocity_gradient self 1 (cvec self U_hat) in
  let S_les : rarr := fun x => sqrt (2.0 * sum33 (fun a b => A_les a b x ^ 2)) in
  let SS : tensor := fun i j x => A_les i j x * S_les x in
  let self := set_tens self S_mod_S_ij_les SS in
  let A' := velocity_gradient self 1 Ut_hat in
  let self := set_tens self A A' in
  let S_test : rarr := fun x => sqrt (2.0 * sum33 (fun a b => A' a b x ^ 2)) in
  let filt (a : rarr) : rarr := filter_3D_array_value self a (test_scale self) in
  let L' : tensor := fun i j x =>
    filt (fun y => U' i y * U' j y) x - Ut i x * Ut j x in
  let M' : tensor := fun i j x =>
    -2 * (D_test self ^ 2 * (S_test x * A' i j x) - D self ^ 2 * filt (SS i j) x) in
  let self := set_rvec self omga
                (upd (upd (upd (rvec self omga) 0 S_test)
                        1 (fun x => S_test x * A' 2%nat 2%nat x))
                   2 (filt (SS 2%nat 2%nat))) in
  let trace : rarr := fun x => L' 0%nat 0%nat x + L' 1%nat 1%nat x + L' 2%nat 2%nat x in
  let L' : tensor := fun i j x =>
    if Nat.eqb i j then L' i j x - 1 / 3 * trace x else L' i j x in
  let self := set_tens (set_tens self L_dyn L') M_dyn M' in
  let C_s : nat -> R := fun r => sqrt (C_s_sqr self L' M' r) in
  let SS : tensor := fun i j x =>
    SS i j x * (2 * (C_s (owner self x) * D self) ^ 2) in
  let self := set_tens self S_mod_S_ij_les SS in
  Ok (add_to_dU self
        (accumulate (fun i j => divergence_term self j (SS i j)))).

(** *** Advection and diffusion *)

Definition computeAD_vorticity_formulation (self : state)
    (kwargs : gmap string pyval) : outcome state :=
  let W := cvec self U_hat in
  let k (a : nat) (p : idx) : R := IZR (K self a p) in
  let curl (a b : nat) : rarr :=
    irfft3 (fun p => Cmul Cj (Csub (Cscale (k a p) (W b p)) (Cscale (k b p) (W a p)))) in
  let w2 := curl 0%nat 1%nat in
  let w1 := curl 2%nat 0%nat in
  let w0 := curl 1%nat 2%nat in
  let self := set_rvec self omga (upd (upd (upd (rvec self omga) 2 w2) 1 w1) 0 w0) in
  let V := rvec self U in
  let rhs : cvector := fun i =>
    match i with
    | 0%nat => rfft3 (fun x => V 1%nat x * w2 x - V 2%nat x * w1 x)
    | 1%nat => rfft3 (fun x => V 2%nat x * w0 x - V 0%nat x * w2 x)
    | _ => rfft3 (fun x => V 0%nat x * w1 x - V 1%nat x * w0 x)
    end in
  Ok (set_cvec self dU
        (fun i p => Csub (rhs i p) (Cscale (nu self * IZR (Ksq self p)) (W i p)))).

(** *** Time-step estimate *)

Definition dtMinHydro (cfl : R) (dx : nat -> R) (u1m u2m u3m : R) : R :=
  cfl * Rmin (dx 0%nat / u1m) (Rmin (dx 1%nat / u2m) (dx 2%nat / u3m)).

Definition dtMinDiff (cfl : R) (dx : nat -> R) (nu nuTmax : R) : R :=
  min3 dx ^ 2 / Rmax (2.0 * nu) (nuTmax / cfl).

Definition dtMin (cfl : R) (dx : nat -> R) (u1m u2m u3m nu nuTmax : R) : R :=
  Rmin (dtMinHydro cfl dx u1m u2m u3m) (dtMinDiff cfl dx nu nuTmax).

Definition new_dt_const_nu (self : state) (cfl : R) : outcome R :=
  let! u1m := global_max self (rvec self U 0%nat) in
  let! u2m := global_max self (rvec self U 1%nat) in
  let! u3m := global_max self (rvec self U 2%nat) in
  Ok (dtMin cfl (dx self) u1m u2m u3m (nu self) (nuTmax self)).

(** *** The Runge-Kutta driver *)

(** What a caller can bind to an attribute of the instance or pass as a
    source term: a callable acting on the instance. *)
Definition callable : Type := gmap string pyval -> state -> outcome state.

(** An instance: its data attributes and the attributes that callers
    bound after construction. *)
Record solver : Type := {
  self_ : state;
  bound : gmap string callable
}.

(** Looking an attribute up: the instance dictionary first, then the
    class. *)
Inductive pyobj : Type :=
| DataAttr
| MethodWithArgs
| Callable (f : callable).

(** Names that [__init__] binds on the instance. *)
Definition init_attrs : list string :=
  ["comm"; "nx"; "L"; "nu"; "dx"; "Nx"; "Nxinv"; "nk"; "dk"; "nnx"; "ixs";
   "ixe"; "X"; "nnk"; "iks"; "ike"; "K"; "Ksq"; "K_Ksq"; "les_scale";
   "les_filter"; "test_scale"; "test_filter"; "forcing_filter";
   "forcing_rate"; "C"; "D"; "D_test"; "smag_coef"; "nuTmax"; "U"; "U_test";
   "omga"; "A"; "R"; "S_mod_S_ij_les"; "L_dyn"; "M_dyn"; "U_hat";
   "U_hat_test"; "U_hat0"; "U_hat1"; "S_hat"; "dU"].

(** The methods that [class spectralLES] defines; those that can be
    called without positional arguments are given with their body. *)
Definition class_dict : gmap string pyobj :=
  list_to_map
    [("__init__", MethodWithArgs);
     ("__enter__", Callable (fun _ self => Ok self));
     ("__exit__", MethodWithArgs);
     ("filter_kernel", MethodWithArgs);
     ("filter_3D_array", MethodWithArgs);
     ("Initialize_Taylor_Green_vortex",
        Callable (fun _ self => Ok (Initialize_Taylor_Green_vortex self)));
     ("get_random_HIT_spectrum", MethodWithArgs);
     ("Initialize_HIT_random_spectrum", MethodWithArgs);
     ("computeSource_HIT_random_forcing",
        Callable (fun kw self => computeSource_HIT_random_forcing self kw));
     ("computeSource_HIT_linear_forcing",
        Callable (fun kw self => computeSource_HIT_linear_forcing self kw));
     ("computeSource_Smagorinksy_SGS",
        Callable (fun kw self => computeSource_Smagorinksy_SGS self kw));
     ("computeSourse_NonlinearModel_SGS",
        Callable (fun kw self => computeSourse_NonlinearModel_SGS self kw));
     ("computeSource_DynamicSmagorinksy_SGS",
        Callable (fun kw self => computeSource_DynamicSmagorinksy_SGS self kw));
     ("computeAD_vorticity_formulation",
        Callable (fun kw self => computeAD_vorticity_formulation self kw));
     ("new_dt_const_nu", MethodWithArgs);
     ("RK4_integrate", MethodWithArgs)].

Definition getattr (o : solver) (name : string) : outcome pyobj :=
  match bound o !! name with
  | Some f => Ok (Callable f)
  | None =>
      if bool_decide (name ∈ init_attrs) then Ok DataAttr
      else match class_dict !! name with
           | Some m => Ok m
           | None => Raise (AttributeError name)
           end
  end.

(** [obj()] *)
Definition call0 (obj : pyobj) (self : state) : outcome state :=
  match obj with
  | Callable f => f ∅ self
  | MethodWithArgs => Raise (TypeError "missing required positional argument")
  | DataAttr => Raise (TypeError "object is not callable")
  end.

(** The loop over [Sources], each called with the keyword arguments. *)
Fixpoint run_sources (Sources : list callable) (kwargs : gmap string pyval)
    (self : state) : outcome state :=
  match Sources with
  | [] => Ok self
  | Source :: rest =>
      let! self := Source kwargs self in
      run_sources rest kwargs self
  end.

Definition a_rk : list R := [1 / 6; 1 / 3; 1 / 3; 1 / 6].
Definition b_rk : list R := [0.5; 0.5; 1].

(** [self.U[i] = irfft3(self.comm, self.U_hat[i])] for [i = 0, 1, 2]. *)
Definition refresh_U (self : state) : state :=
  set_rvec self U (fun i => irfft3 (cvec self U_hat i)).

(** One pass through the body of [for rk in range(4)]. *)
Definition RK4_stage (o : solver) (dt : R) (Sources : list callable)
    (kwargs : gmap string pyval) (rk : nat) (self : state) : outcome state :=
  let self := refresh_U self in
  let! computeAD := getattr o "computeAD" in
  let! self := call0 computeAD self in
  let! self := run_sources Sources kwargs self in
  let self := set_cvec self dU
                (fun i p => Cmul (cvec self dU i p) (les_filter self p)) in
  let self := set_cvec self dU (project (K self) (K_Ksq self) (cvec self dU)) in
  let self :=
    if (rk <? 3)%nat then
      set_cvec self U_hat
        (fun i p => Cadd (cvec self U_hat0 i p)
                         (Cscale (nth rk b_rk 0 * dt) (cvec self dU i p)))
    else self in
  Ok (set_cvec self U_hat1
        (fun i p => Cadd (cvec self U_hat1 i p)
                         (Cscale (nth rk a_rk 0 * dt) (cvec self dU i p)))).

Fixpoint RK4_stages (o : solver) (dt : R) (Sources : list callable)
    (kwargs : gmap string pyval) (rks : list nat) (self : state) : outcome state :=
  match rks with
  | [] => Ok self
  | rk :: rest =>
      let! self := RK4_stage o dt Sources kwargs rk self in
      RK4_stages o dt Sources kwargs rest self
  end.

Definition RK4_integrate (o : solver) (dt : R) (Sources : list callable)
    (kwargs : gmap string pyval) : outcome solver :=
  let self := self_ o in
  let self := set_cvec self U_hat1 (cvec self U_hat) in
  let self := set_cvec self U_hat0 (cvec self U_hat) in
  let! self := RK4_stages o dt Sources kwargs [0; 1; 2; 3]%nat self in
  let self := refresh_U self in
  Ok {| self_ := self; bound := bound o |}.

(** The class call [spectralLES(comm, L, nx, nu, ...)]. *)
Definition spectralLES (comm : Comm) (L_arg : pyarg R) (nx_arg : pyarg Z) (nu : R)
    (Gtype : string) (les_scale test_scale eps_inj : option R)
    (mem : uninitialised) (rng : rng_state) : outcome solver :=
  let! self := __init__ comm L_arg nx_arg nu Gtype les_scale test_scale eps_inj
                 mem rng in
  Ok {| self_ := self; bound := ∅ |}.

(** *** [filter_3D_array] with its arguments passed by reference

    Python passes [array] and [result] as references to array objects.
    The object store maps an object identity to the array it holds;
    creating an array allocates a fresh identity. *)

Inductive ndarray : Type :=
| RealArray (a : rarr)
| ComplexArray (a : carr).

Definition alloc (h : gmap nat ndarray) (v : ndarray) : gmap nat ndarray * nat :=
  let l := fresh (dom h) in (<[l := v]> h, l).

Definition filter_3D_array (self : state) (h : gmap nat ndarray) (array : nat)
    (scale_k : R) (result : option nat) : outcome (gmap nat ndarray * nat) :=
  match h !! array with
  | Some (RealArray a) =>
      let F := rfft3 a in
      let (h, fft_array) := alloc h (ComplexArray F) in
      let Ff : carr :=
        if Req_dec_T scale_k (les_scale self) then
          fun p => Cmul (F p) (les_filter self p)
        else if Req_dec_T scale_k (test_scale self) then
          fun p => Cmul (F p) (test_filter self p)
        else
          fun p => Cmul (F p) (spectral_kernel self scale_k p) in
      let (h, fft_filtered) := alloc h (ComplexArray Ff) in
      let (h, result) := alloc h (RealArray (irfft3 Ff)) in
      Ok (h, result)
  | _ => Raise (TypeError "rfft3 expects a real array")
  end.

End Solver.

(** Reading an attribute back after a sequence of writes. *)
Ltac reads :=
  cbn [geom les_scale les_filter test_scale test_filter forcing_filter
       forcing_rate C D D_test smag_coef nuTmax rvec cvec tens np_random
       set_rvec set_cvec set_tens set_nuTmax set_np_random
       rattr_eqb cattr_eqb tattr_eqb bind].

(** Unfolding every write to the instance at once, before the result of
    a long method is named; the instance is given by its fields. *)
Ltac writes :=
  cbv beta zeta iota
      delta [add_to_dU set_tens set_rvec set_cvec set_nuTmax set_np_random
             tens cvec rvec geom les_scale les_filter test_scale test_filter
             forcing_filter forcing_rate C D D_test smag_coef nuTmax np_random
             tattr_eqb cattr_eqb rattr_eqb].

(** ** A grid of one point

    On the grid [nx = (1, 1, 1)] an array has the single entry
    [(0, 0, 0)] and the discrete Fourier transform of an array is the
    array itself, whatever the normalisation.  The generator is a stub
    that returns zero samples. *)

Definition one_point : Collaborators :=
  {| rfft3 := fun u p => RtoC (u p);
     irfft3 := fun f x => fst (f x);
     rng_state := unit;
     np_random_seed := fun _ => tt;
     np_random_rand := fun s => (fun _ _ => 0, s);
     np_random_randn := fun s => (fun _ _ => 0, s) |}.

Definition COMM_SELF : Comm := {| comm_size := 1; comm_rank := 0 |}.

Definition zero_memory : uninitialised :=
  {| empty_rvec := fun _ _ _ => 0;
     empty_cvec := fun _ _ _ => RtoC 0;
     empty_tens := fun _ _ _ _ => 0 |}.

(** ** Input validation *)

(** An iterable whose length is neither 1 nor 3. *)
Definition bad_length {T : Type} (v : pyarg T) : Prop :=
  match v with
  | Iterable l => length l <> 1%nat /\ length l <> 3%nat
  | Scalar _ => False
  end.

Definition known_kernel (Gtype : string) : Prop :=
  Gtype = "tophat" \/ Gtype = "comp_exp" \/ Gtype = "spectral".

(** ** Vocabulary of the properties *)

Section Vocabulary.

Context {E : Collaborators}.



(** The transforms are linear; the forcing terms use that the inverse
    transform commutes with a real factor. *)
Definition irfft3_homogeneous : Prop :=
  forall (c : R) (f : carr) (x : idx),
    irfft3 (fun p => Cscale c (f p)) x = c * irfft3 f x.



(** The velocity state after a source term: [U_hat] as before, and [dU]
    increased by the contribution left in [S_hat]. *)
Definition adds_to_dU_only (self self' : state) : Prop :=
  cvec self' U_hat = cvec self U_hat
  /\ forall i p, cvec self' dU i p = Cadd (cvec self dU i p) (cvec self' S_hat i p).

End Vocabulary.

(** The coefficient as the specification words it: both means taken over
    the whole distributed domain, so that every rank holds the same
    value. *)
Definition C_s_sqr_global (g : Geometry) (L_dyn' M_dyn' : tensor) : R :=
  let L_M := contract L_dyn' M_dyn' in
  let M_M := contract M_dyn' M_dyn' in
  (global_sum g L_M / IZR (Nx g)) / (global_sum g M_M / IZR (Nx g)).

(** ** Concrete instances *)

(** The value of a call that returns. *)
Definition from_ok {T : Type} (m : outcome T)
  : match m with Ok _ => T | Raise _ => unit end :=
  match m with
  | Ok v => v
  | Raise _ => tt
  end.

(** The first grid point and the zero mode. *)
Definition p0 : idx := (0, 0, 0)%nat.

(** The second grid point and the second mode. *)
Definition p1 : idx := (0, 0, 1)%nat.

(** The instance [spectralLES(comm, L, 1, nu, 'spectral', les_scale=1,
    eps_inj=eps)] on one process: a single grid point, a cubic domain of
    side [Lv]. *)
Definition point_instance (Lv nu_ eps : R) : @state one_point :=
  from_ok (@__init__ one_point COMM_SELF (Scalar Lv) (Scalar 1%Z) nu_ "spectral"
             (Some 1) None (Some eps) zero_memory tt).


Definition stream_hat (u : R) : cvector :=
  fun i _ => match i with 0%nat => RtoC u | _ => RtoC 0 end.

(** Two arrays: the field to filter and a buffer handed over as
    [result]. *)
Definition two_arrays : gmap nat ndarray :=
  <[0%nat := RealArray (fun _ => 1)]> (<[1%nat := RealArray (fun _ => 0)]> ∅).

(** One grid point, unit spacing, viscosity [nu_], turbulent viscosity
    [nuT] left by an earlier Smagorinsky call, velocity maxima [u]. *)
Definition flow (nu_ nuT : R) (u : nat -> R) : @state one_point :=
  set_nuTmax (set_rvec (point_instance 1 nu_ 1) U (fun i _ => u i)) nuT.

(** Velocity maxima: all three at 1/4, and the first one raised to 1/2. *)
Definition quarter : nat -> R := fun _ => 1 / 4.


(** A caller has written the spectral velocity and left [U] as
    allocated. *)
Definition spectral_only : @state one_point :=
  set_cvec (point_instance 1 0.01 1) U_hat (stream_hat 1).


(** Two ranks sharing a [2 x 2 x 1] grid, as seen from rank [r]. *)
Definition two_ranks (r : nat) : Geometry :=
  make_geometry {| comm_size := 2; comm_rank := r |}
    (of_list3 0%Z [2; 2; 1]%Z) (of_list3 0 [1; 1; 1]) 0.01.

(** Symmetric, trace-free tensors whose only entries are the [01] and
    [10] ones; the resolved stress is 1 on the first plane of the grid
    and 3 on the second. *)
Definition shear (s : rarr) : tensor :=
  fun i j x =>
    match i, j with
    | 0%nat, 1%nat | 1%nat, 0%nat => s x
    | _, _ => 0
    end.

Definition stress_by_plane : rarr :=
  fun x => match coord 0 x with 0%nat => 1 | _ => 3 end.

(** On the grid [nx = (1, 1, 2)] the real transform along the last axis
    has the two modes [u0 + u1] and [u0 - u1], both real, and the inverse
    transform halves their sum and their difference (numpy's convention;
    another normalisation rescales the spectral coefficients by a
    constant).  The generator is a stub: zero phases, unit magnitudes. *)
Definition pair_rfft3 (u : rarr) : carr :=
  fun p =>
    let '(i, j, k) := p in
    match k with
    | 0%nat => RtoC (u (i, j, 0%nat) + u (i, j, 1%nat))
    | _ => RtoC (u (i, j, 0%nat) - u (i, j, 1%nat))
    end.

Definition pair_irfft3 (f : carr) : rarr :=
  fun x =>
    let '(i, j, k) := x in
    match k with
    | 0%nat => (fst (f (i, j, 0%nat)) + fst (f (i, j, 1%nat))) / 2
    | _ => (fst (f (i, j, 0%nat)) - fst (f (i, j, 1%nat))) / 2
    end.

Definition two_point : Collaborators :=
  {| rfft3 := pair_rfft3;
     irfft3 := pair_irfft3;
     rng_state := unit;
     np_random_seed := fun _ => tt;
     np_random_rand := fun s => (fun _ _ => 0, s);
     np_random_randn := fun s => (fun _ _ => 1, s) |}.

(** [spectralLES(comm, 1, [1, 1, 2], nu, 'spectral', les_scale=2,
    eps_inj=eps)] on one process. *)
Definition pair_instance (nu_ eps : R) : @state two_point :=
  from_ok (@__init__ two_point COMM_SELF (Scalar 1) (Iterable [1; 1; 2]%Z) nu_
             "spectral" (Some 2) None (Some eps) zero_memory tt).



(** The spectral velocity of a shear wave: the first component, on the
    second mode. *)
Definition shear_wave : cvector :=
  fun i p =>
    match i, p with
    | 0%nat, (0, 0, 1)%nat => RtoC 1
    | _, _ => RtoC 0
    end.

(** The instance with viscosity [nu_] holding the shear wave, after the
    caller has bound [computeAD] to the vorticity formulation. *)
Definition diffusing (nu_ : R) : @solver two_point :=
  {| self_ := set_cvec (pair_instance nu_ 1) U_hat shear_wave;
     bound := {["computeAD" := fun kw self => computeAD_vorticity_formulation self kw]} |}.

(** What a stage reads and writes at the second mode of the first
    component: the working value [x] of [U_hat], the stage-start value 1
    in [U_hat0], the accumulated sum [y] in [U_hat1]. *)
Definition at_mode (nu_ : R) (s : @state two_point) (x y : R) : Prop :=
  geom s = geom (pair_instance nu_ 1)
  /\ les_filter s p1 = RtoC 1
  /\ cvec s U_hat 0%nat p1 = RtoC x
  /\ cvec s U_hat0 0%nat p1 = RtoC 1
  /\ cvec s U_hat1 0%nat p1 = RtoC y.

(** ** Vocabulary of the further properties *)

(** The geometry that rank [r] of [size] processes builds from the same
    constructor arguments. *)
Definition rank_geometry (size : nat) (nx : nat -> Z) (L : nat -> R) (nu : R)
    (r : nat) : Geometry :=
  make_geometry {| comm_size := size; comm_rank := r |} nx L nu.

(** [sum_axis K[axis]*F[axis]]: the divergence of a spectral vector
    field, up to the factor [1j]. *)
Definition spectral_divergence (K : nat -> iarr) (F : cvector) : carr :=
  fun p => csum3 (fun a => Cscale (IZR (K a p)) (F a p)).

(** The default scales [floor(sqrt(2)*nx.min()/3.)] and
    [floor(0.5*les_scale)], as functions of the smallest grid size. *)
Definition default_les_scale (n : Z) : R := IZR (Int_part (sqrt 2 * IZR n / 3)).

Definition default_test_scale (n : Z) : R :=
  IZR (Int_part (0.5 * default_les_scale n)).

(** A callable that, whenever it returns, has left the grid, the LES
    filter and the three spectral velocity registers of the Runge-Kutta
    driver as they were. *)
Definition keeps_stage_registers {E : Collaborators} (f : callable) : Prop :=
  forall kw s s',
    f kw s = Ok s' ->
    geom s' = geom s /\ les_filter s' = les_filter s
    /\ cvec s' U_hat = cvec s U_hat
    /\ cvec s' U_hat0 = cvec s U_hat0
    /\ cvec s' U_hat1 = cvec s U_hat1.

(** A callable that returns on every instance. *)
Definition always_returns {E : Collaborators} (f : callable) : Prop :=
  forall kw s, exists s', f kw s = Ok s'.

(** The methods of the class that a caller can bind to [computeAD] or
    pass to the driver as source terms. *)
Definition class_evaluators {E : Collaborators} : list callable :=
  [fun kw self => computeAD_vorticity_formulation self kw;
   fun kw self => computeSource_HIT_random_forcing self kw;
   fun kw self => computeSource_HIT_linear_forcing self kw;
   fun kw self => computeSource_Smagorinksy_SGS self kw;
   fun kw self => computeSourse_NonlinearModel_SGS self kw;
   fun kw self => computeSource_DynamicSmagorinksy_SGS self kw].

(** [spectralLES(comm, 1, 1, 0.01, 'spectral', les_scale=1)] on one
    process: no injection rate is configured. *)
Definition unforced : @state one_point :=
  from_ok (@__init__ one_point COMM_SELF (Scalar 1) (Scalar 1%Z) 0.01 "spectral"
             (Some 1) None None zero_memory tt).

(** The same call with every scale left to its default. *)
Definition default_point : @state one_point :=
  from_ok (@__init__ one_point COMM_SELF (Scalar 1) (Scalar 1%Z) 0.01 "spectral"
             None None None zero_memory tt).

(** The same grid of one point, built by rank 0 of two processes: the
    single plane cannot be shared. *)
Definition starved : @state one_point :=
  from_ok (@__init__ one_point {| comm_size := 2; comm_rank := 0 |} (Scalar 1)
             (Scalar 1%Z) 0.01 "spectral" (Some 1) None None zero_memory tt).

(** Velocity maxima of a flow that moves against the first axis
    everywhere. *)
Definition backward : nat -> R := fun i => match i with 0%nat => - (1 / 4) | _ => 1 / 4 end.

Section Validation.

Context {E : Collaborators}.

Lemma three_raises {T : Type} (name : string) (v : pyarg T) :
  bad_length v ->
  three name v = Raise (IndexError ("The length of " +:+ name +:+ " must be either 1 or 3")).
Proof.
  destruct v as [x | l]; simpl; [tauto |].
  intros [H1 H3].
  destruct (Nat.eqb_spec (length l) 1); [contradiction |].
  destruct (Nat.eqb_spec (length l) 3); [contradiction | reflexivity].
Qed.

Lemma three_returns {T : Type} (name : string) (v : pyarg T) :
  ~ bad_length v -> exists l, three name v = Ok l /\ length l = 3%nat.
Proof.
  destruct v as [x | l]; simpl; intros Hok.
  - exists [x; x; x]. split; reflexivity.
  - destruct (Nat.eqb_spec (length l) 1) as [H1 | H1].
    + exists (l ++ l ++ l). split; [reflexivity |].
      rewrite !length_app. lia.
    + destruct (Nat.eqb_spec (length l) 3) as [H3 | H3].
      * exists l. split; [reflexivity | exact H3].
      * exfalso. apply Hok. split; assumption.
Qed.

Lemma bad_length_dec {T : Type} (v : pyarg T) : bad_length v \/ ~ bad_length v.
Proof.
  destruct v as [x | l]; simpl; [tauto |].
  destruct (Nat.eq_dec (length l) 1); destruct (Nat.eq_dec (length l) 3); tauto.
Qed.

Lemma filter_kernel_raises (self : Geometry) (kf : R) (Gtype : string)
    (k_kf : option rarr) (e : exn) :
  filter_kernel self kf Gtype k_kf = Raise e ->
  ~ known_kernel Gtype /\ e = ValueError "did not understand filter type".
Proof.
  unfold filter_kernel, known_kernel.
  destruct (String.eqb_spec Gtype "tophat"); [discriminate |].
  destruct (String.eqb_spec Gtype "comp_exp"); [discriminate |].
  destruct (String.eqb_spec Gtype "spectral"); [discriminate |].
  intros H. injection H as <-. split; [tauto | reflexivity].
Qed.

Lemma filter_kernel_unknown (self : Geometry) (kf : R) (Gtype : string)
    (k_kf : option rarr) :
  ~ known_kernel Gtype ->
  filter_kernel self kf Gtype k_kf = Raise (ValueError "did not understand filter type").
Proof.
  unfold filter_kernel, known_kernel. intros Hn.
  destruct (String.eqb_spec Gtype "tophat"); [tauto |].
  destruct (String.eqb_spec Gtype "comp_exp"); [tauto |].
  destruct (String.eqb_spec Gtype "spectral"); [tauto | reflexivity].
Qed.

(** C9. The constructor raises its length error exactly when [nx] or
    [L] is an iterable whose length is neither 1 nor 3, with the
    message of the first offender ([nx] is checked before [L]); scalars
    are replicated to three components.  [filter_kernel] raises exactly
    when the label is none of [tophat], [comp_exp], [spectral], and the
    error is its [ValueError].  In each case the raise is the outcome of
    the call: nothing is retried or substituted. *)
Theorem input_validation :
  (forall comm L_arg nx_arg nu Gtype les test eps mem rng,
      ((exists msg, __init__ comm L_arg nx_arg nu Gtype les test eps mem rng
                    = Raise (IndexError msg))
       <-> bad_length nx_arg \/ bad_length L_arg)
      /\ (bad_length nx_arg ->
          __init__ comm L_arg nx_arg nu Gtype les test eps mem rng
          = Raise (IndexError "The length of nx must be either 1 or 3"))
      /\ (~ bad_length nx_arg -> bad_length L_arg ->
          __init__ comm L_arg nx_arg nu Gtype les test eps mem rng
          = Raise (IndexError "The length of L must be either 1 or 3")))
  /\ (forall (x : Z) (y : R),
         three "nx" (Scalar x) = Ok [x; x; x] /\ three "L" (Scalar y) = Ok [y; y; y])
  /\ (forall self kf Gtype k_kf,
         ((exists e, filter_kernel self kf Gtype k_kf = Raise e)
          <-> ~ known_kernel Gtype)
         /\ (~ known_kernel Gtype ->
             filter_kernel self kf Gtype k_kf
             = Raise (ValueError "did not understand filter type"))).
Proof.
  split; [| split].
  - intros comm0 L_arg nx_arg nu0 Gtype les test eps mem rng.
    assert (Hnx : bad_length nx_arg ->
                  __init__ comm0 L_arg nx_arg nu0 Gtype les test eps mem rng
                  = Raise (IndexError "The length of nx must be either 1 or 3")).
    { intros Hb. unfold __init__. rewrite (three_raises "nx" nx_arg Hb). reflexivity. }
    assert (HL : ~ bad_length nx_arg -> bad_length L_arg ->
                 __init__ comm0 L_arg nx_arg nu0 Gtype les test eps mem rng
                 = Raise (IndexError "The length of L must be either 1 or 3")).
    { intros Hg Hb. unfold __init__.
      destruct (three_returns "nx" nx_arg Hg) as [l [-> _]].
      simpl. rewrite (three_raises "L" L_arg Hb). reflexivity. }
    split; [| split; assumption].
    split.
    + intros [msg Hr].
      destruct (bad_length_dec nx_arg) as [Hb | Hg]; [left; exact Hb |].
      destruct (bad_length_dec L_arg) as [Hb | Hg']; [right; exact Hb |].
      exfalso. revert Hr. unfold __init__.
      destruct (three_returns "nx" nx_arg Hg) as [l [-> _]].
      destruct (three_returns "L" L_arg Hg') as [l' [-> _]].
      simpl.
      match goal with
      | |- context [filter_kernel ?g ?k Gtype None] =>
          destruct (filter_kernel g k Gtype None) as [G1 | e1] eqn:E1
      end; simpl.
      * match goal with
        | |- context [filter_kernel ?g ?k Gtype None] =>
            destruct (filter_kernel g k Gtype None) as [G2 | e2] eqn:E2
        end; simpl; [discriminate |].
        apply filter_kernel_raises in E2 as [_ ->]. discriminate.
      * apply filter_kernel_raises in E1 as [_ ->]. discriminate.
    + intros [Hb | Hb].
      * eexists. apply Hnx, Hb.
      * destruct (bad_length_dec nx_arg) as [Hb' | Hg].
        -- eexists. apply Hnx, Hb'.
        -- eexists. apply HL; assumption.
  - intros x y. split; reflexivity.
  - intros self kf Gtype k_kf. split.
    + split.
      * intros [e He]. apply filter_kernel_raises in He. tauto.
      * intros Hn. eexists. apply filter_kernel_unknown, Hn.
    + apply filter_kernel_unknown.
Qed.

End Validation.

(** ** The advection-diffusion attribute of the driver *)

Section Driver.

Context {E : Collaborators}.

Lemma computeAD_not_an_attribute :
  bool_decide ("computeAD" ∈ init_attrs) = false /\ class_dict !! "computeAD" = None.
Proof. split; vm_compute; reflexivity. Qed.

Lemma getattr_computeAD_unbound (o : solver) :
  bound o !! "computeAD" = None ->
  getattr o "computeAD" = Raise (AttributeError "computeAD").
Proof.
  intros Hb. unfold getattr. rewrite Hb.
  destruct computeAD_not_an_attribute as [-> ->]. reflexivity.
Qed.

Lemma getattr_bound (o : solver) (name : string) (f : callable) :
  bound o !! name = Some f -> getattr o name = Ok (Callable f).
Proof. intros Hb. unfold getattr. rewrite Hb. reflexivity. Qed.

Lemma RK4_stage_unbound (o : solver) dt Sources kwargs rk self :
  bound o !! "computeAD" = None ->
  RK4_stage o dt Sources kwargs rk self = Raise (AttributeError "computeAD").
Proof.
  intros Hb. unfold RK4_stage. rewrite (getattr_computeAD_unbound o Hb). reflexivity.
Qed.

Lemma spectralLES_binds_nothing comm L_arg nx_arg nu Gtype les test eps mem rng o :
  spectralLES comm L_arg nx_arg nu Gtype les test eps mem rng = Ok o ->
  bound o = ∅.
Proof.
  unfold spectralLES.
  destruct (__init__ comm L_arg nx_arg nu Gtype les test eps mem rng); simpl;
    [| discriminate].
  intros H. injection H as <-. reflexivity.
Qed.

(** C2. On an instance exactly as the constructor returns it,
    [RK4_integrate] raises [AttributeError] for [computeAD], whatever the
    time step, the sources and the keyword arguments: neither [__init__]
    nor the class binds that name.  Once a caller binds [computeAD], the
    lookup in the driver finds the bound callable. *)
Theorem RK4_integrate_raises_AttributeError
    comm L_arg nx_arg nu Gtype les test eps mem rng (o : solver)
    (dt : R) (Sources : list callable) (kwargs : gmap string pyval) :
  spectralLES comm L_arg nx_arg nu Gtype les test eps mem rng = Ok o ->
  RK4_integrate o dt Sources kwargs = Raise (AttributeError "computeAD")
  /\ class_dict !! "computeAD" = None
  /\ is_Some (class_dict !! "computeAD_vorticity_formulation")
  /\ (forall f : callable,
         getattr {| self_ := self_ o; bound := <["computeAD" := f]> (bound o) |}
                 "computeAD"
         = Ok (Callable f)).
Proof.
  intros Hnew. apply spectralLES_binds_nothing in Hnew.
  split; [| split; [| split]].
  - unfold RK4_integrate. cbn [RK4_stages].
    rewrite RK4_stage_unbound; [reflexivity |].
    rewrite Hnew. apply lookup_empty.
  - apply computeAD_not_an_attribute.
  - vm_compute. eexists. reflexivity.
  - intros f. apply getattr_bound. cbn [bound]. apply lookup_insert_eq.
Qed.

(** ** The result argument of [filter_3D_array] *)

Lemma alloc_spec (h : gmap nat ndarray) (v : ndarray) :
  h !! (alloc h v).2 = None
  /\ (alloc h v).1 !! (alloc h v).2 = Some v
  /\ (forall l w, h !! l = Some w -> (alloc h v).1 !! l = Some w).
Proof.
  unfold alloc. cbn [fst snd].
  assert (Hf : h !! fresh (dom h) = None).
  { apply not_elem_of_dom. apply is_fresh. }
  split; [exact Hf |]. split; [apply lookup_insert_eq |].
  intros l w Hl. rewrite lookup_insert_ne; [exact Hl |].
  intros Heq. rewrite <- Heq in Hl. congruence.
Qed.

(** C10. [filter_3D_array] never stores through its [result] argument.
    The name is rebound to the array that the inverse transform
    allocates: the returned object is new, it holds the filtered field,
    every object that existed before the call, the one passed as
    [result] among them, has the contents it had. *)
Theorem filter_3D_array_leaves_result_buffer
    (self : state) (h : gmap nat ndarray) (array : nat) (a : rarr)
    (scale_k : R) (result : option nat) :
  h !! array = Some (RealArray a) ->
  exists h' out,
    filter_3D_array self h array scale_k result = Ok (h', out)
    /\ h !! out = None
    /\ h' !! out = Some (RealArray (filter_3D_array_value self a scale_k))
    /\ (forall l w, h !! l = Some w -> h' !! l = Some w)
    /\ (forall r w, result = Some r -> h !! r = Some w ->
                    out <> r /\ h' !! r = Some w).
Proof.
  intros Ha. unfold filter_3D_array. rewrite Ha.
  set (F := rfft3 a).
  destruct (alloc h (ComplexArray F)) as [h1 l1] eqn:E1.
  pose proof (alloc_spec h (ComplexArray F)) as S1. rewrite E1 in S1.
  cbn [fst snd] in S1. destruct S1 as (N1 & _ & K1).
  match goal with
  | |- context [alloc h1 (ComplexArray ?Ff)] => set (G := Ff)
  end.
  destruct (alloc h1 (ComplexArray G)) as [h2 l2] eqn:E2.
  pose proof (alloc_spec h1 (ComplexArray G)) as S2. rewrite E2 in S2.
  cbn [fst snd] in S2. destruct S2 as (N2 & _ & K2).
  destruct (alloc h2 (RealArray (irfft3 G))) as [h3 l3] eqn:E3.
  pose proof (alloc_spec h2 (RealArray (irfft3 G))) as S3. rewrite E3 in S3.
  cbn [fst snd] in S3. destruct S3 as (N3 & V3 & K3).
  assert (Hkeep : forall l w, h !! l = Some w -> h3 !! l = Some w).
  { intros l w Hl. apply K3, K2, K1, Hl. }
  assert (Hnew : h !! l3 = None).
  { destruct (h !! l3) as [w |] eqn:Hl; [| reflexivity].
    apply K1, K2 in Hl. rewrite N3 in Hl. discriminate. }
  exists h3, l3. split; [reflexivity |].
  split; [exact Hnew |]. split.
  - rewrite V3. unfold filter_3D_array_value. subst G F. reflexivity.
  - split; [exact Hkeep |].
    intros r w _ Hr. split; [| apply Hkeep, Hr].
    intros ->. rewrite Hnew in Hr. discriminate.
Qed.

End Driver.

(** ** The Leray-Hopf projection *)

Section Projection.

Variable K : nat -> iarr.
Variable p : idx.

Let k (a : nat) : R := IZR (K a p).

Lemma Ksq_as_real :
  IZR (make_Ksq K p) = k 0%nat * k 0%nat + k 1%nat * k 1%nat + k 2%nat * k 2%nat.
Proof. unfold make_Ksq, k. rewrite !plus_IZR, !mult_IZR. reflexivity. Qed.

Lemma zero_mode_wavevector :
  make_Ksq K p = 0%Z -> k 0%nat = 0 /\ k 1%nat = 0 /\ k 2%nat = 0.
Proof.
  unfold make_Ksq, k. intros H.
  assert (K 0%nat p = 0 /\ K 1%nat p = 0 /\ K 2%nat p = 0)%Z as (-> & -> & ->) by nia.
  repeat split; reflexivity.
Qed.

(** Away from the zero mode, [K_Ksq] is [K/Ksq] with [Ksq] non-zero; at
    the zero mode the mask makes it [0/1]. *)
Lemma K_Ksq_cases :
  (make_Ksq K p = 0%Z
   /\ forall a, (a < 3)%nat -> k a = 0 /\ make_K_Ksq K a p = 0)
  \/ (IZR (make_Ksq K p) <> 0
      /\ forall a, make_K_Ksq K a p = k a / IZR (make_Ksq K p)).
Proof.
  destruct (Z.eq_dec (make_Ksq K p) 0) as [Hz | Hnz].
  - left. split; [exact Hz |].
    destruct (zero_mode_wavevector Hz) as (H0 & H1 & H2).
    intros a Ha. unfold make_K_Ksq. rewrite Hz. cbn [Z.eqb].
    assert (Hk : k a = 0).
    { destruct a as [| [| [| a]]]; [assumption | assumption | assumption | lia]. }
    split; [exact Hk |]. fold (k a). rewrite Hk. lra.
  - right. split.
    + intros H. apply Hnz. apply eq_IZR. exact H.
    + intros a. unfold make_K_Ksq.
      destruct (Z.eqb_spec (make_Ksq K p) 0); [contradiction | reflexivity].
Qed.

Lemma project_divergence (F : cvector) :
  csum3 (fun a => Cscale (IZR (K a p)) (project K (make_K_Ksq K) F a p)) = RtoC 0.
Proof.
  unfold project, csum3, Cscale, Csub, Cadd, RtoC. cbn [fst snd]. fold (k 0%nat) (k 1%nat) (k 2%nat).
  destruct K_Ksq_cases as [(_ & Hz) | (Hnz & Hq)].
  - destruct (Hz 0%nat) as [-> ->]; [lia |].
    destruct (Hz 1%nat) as [-> ->]; [lia |].
    destruct (Hz 2%nat) as [-> ->]; [lia |].
    f_equal; ring.
  - rewrite !Hq. pose proof Ksq_as_real as Hs.
    set (s := IZR (make_Ksq K p)) in *.
    f_equal; field_simplify_eq; try exact Hnz; rewrite Hs; ring.
Qed.

Lemma project_idempotent (F : cvector) (a : nat) :
  (a < 3)%nat ->
  project K (make_K_Ksq K) (project K (make_K_Ksq K) F) a p
  = project K (make_K_Ksq K) F a p.
Proof.
  intros Ha.
  unfold project, csum3, Cscale, Csub, Cadd. cbn [fst snd]. fold (k 0%nat) (k 1%nat) (k 2%nat) (k a).
  destruct K_Ksq_cases as [(_ & Hz) | (Hnz & Hq)].
  - destruct (Hz 0%nat) as [-> ->]; [lia |].
    destruct (Hz 1%nat) as [-> ->]; [lia |].
    destruct (Hz 2%nat) as [-> ->]; [lia |].
    destruct (Hz a Ha) as [-> _].
    f_equal; ring.
  - rewrite !Hq. pose proof Ksq_as_real as Hs.
    set (s := IZR (make_Ksq K p)) in *.
    f_equal; field_simplify_eq; try exact Hnz; rewrite Hs; ring.
Qed.

End Projection.

(** C5. On the grid that the constructor builds, the projection
    [P(F) = F - (sum_axis F[axis]*K_Ksq[axis])*K] of any spectral vector
    field [F] has [sum_axis K[axis]*P(F)[axis] = 0] at every mode, the
    masked zero mode included, and projecting twice gives the same field
    as projecting once. *)
Theorem projection_divergence_free_and_idempotent
    (comm : Comm) (nx : nat -> Z) (L : nat -> R) (nu : R) (F : cvector) (p : idx) :
  let g := make_geometry comm nx L nu in
  let P := project (K g) (K_Ksq g) in
  csum3 (fun a => Cscale (IZR (K g a p)) (P F a p)) = RtoC 0
  /\ P (P F) 0%nat p = P F 0%nat p
  /\ P (P F) 1%nat p = P F 1%nat p
  /\ P (P F) 2%nat p = P F 2%nat p.
Proof.
  intros g P.
  assert (HK : K_Ksq g = make_K_Ksq (K g)) by reflexivity.
  unfold P. rewrite HK.
  split; [apply (project_divergence (K g) p F) |].
  repeat split; apply (project_idempotent (K g) p F); lia.
Qed.

(** ** The time-step estimate *)







Section Timestep.

Context {E : Collaborators}.

Lemma new_dt_const_nu_value (self : state) (cfl : R) (u : nat -> R) :
  (forall i, (i < 3)%nat -> global_max self (rvec self U i) = Ok (u i)) ->
  new_dt_const_nu self cfl
  = Ok (dtMin cfl (dx self) (u 0%nat) (u 1%nat) (u 2%nat) (nu self) (nuTmax self)).
Proof.
  intros Hu. unfold new_dt_const_nu.
  rewrite (Hu 0%nat), (Hu 1%nat), (Hu 2%nat) by lia. reflexivity.
Qed.


End Timestep.

(** ** Energy injection by the forcing terms *)

Section Forcing.

Context {E : Collaborators}.

Lemma psum_scale (c : R) (a : rarr) (pts : list idx) :
  psum (fun x => c * a x) pts = c * psum a pts.
Proof.
  induction pts as [| q pts IH]; simpl; [ring |]. rewrite IH. ring.
Qed.

Lemma psum_ext (a b : rarr) (pts : list idx) :
  (forall x, a x = b x) -> psum a pts = psum b pts.
Proof.
  intros Hab. induction pts as [| q pts IH]; simpl; [reflexivity |].
  rewrite IH, Hab. reflexivity.
Qed.

Lemma allreduce_SUM_scale (c : R) (n : nat) (v : nat -> R) :
  allreduce_SUM n (fun r => c * v r) = c * allreduce_SUM n v.
Proof.
  unfold allreduce_SUM. induction (seq 0 n) as [| r l IH]; simpl; [ring |].
  rewrite IH. ring.
Qed.

Lemma allreduce_SUM_ext (n : nat) (v w : nat -> R) :
  (forall r, v r = w r) -> allreduce_SUM n v = allreduce_SUM n w.
Proof.
  intros Hvw. unfold allreduce_SUM.
  induction (seq 0 n) as [| r l IH]; simpl; [reflexivity |].
  rewrite IH, Hvw. reflexivity.
Qed.

Lemma global_sum3_scale (g : Geometry) (c : R) (v w : rvector) :
  (forall i x, w i x = c * v i x) ->
  global_sum3 g w = c * global_sum3 g v.
Proof.
  intros Hw. unfold global_sum3.
  rewrite <- allreduce_SUM_scale. apply allreduce_SUM_ext. intros r.
  rewrite !(psum_ext (w _) (fun x => c * v _ x)) by (intros x; apply Hw).
  rewrite !psum_scale. ring.
Qed.


Lemma get_random_HIT_spectrum_frame (self : state) (k_exp k_peak : R) (rseed : pyval) :
  let drawn := get_random_HIT_spectrum self k_exp k_peak rseed in
  geom drawn = geom self /\ rvec drawn = rvec self
  /\ forcing_rate drawn = forcing_rate self
  /\ forcing_filter drawn = forcing_filter self
  /\ (forall a, a <> S_hat -> cvec drawn a = cvec self a).
Proof.
  unfold get_random_HIT_spectrum.
  destruct (np_random_rand _) as [q1 rng1].
  destruct (np_random_randn _) as [q2 rng2].
  reads. repeat split.
  intros a Ha. destruct a; reads; try reflexivity. contradiction.
Qed.




End Forcing.

(** ** What the subgrid-scale models write *)

Section SGS.

Context {E : Collaborators}.

Lemma global_max_returns (g : Geometry) (a : rarr) :
  slab g 0 <> [] -> exists m, global_max g a = Ok m.
Proof.
  intros Hne. unfold global_max, np_max at 1.
  destruct (slab g 0) as [| q rest]; [contradiction |].
  reads. eexists. reflexivity.
Qed.

(** C8, as the code has it.  Each model returns with [U_hat] untouched
    and [dU] increased by its contribution.  The Smagorinsky and the
    nonlinear model do not write [U].  The dynamic model overwrites [U]
    with the inverse transform of [U_hat]; [U] keeps its value when it
    was that transform on entry, as it is inside a Runge-Kutta stage. *)
Theorem sgs_models_leave_velocity (self : state) (kwargs : gmap string pyval) :
  (slab self 0 <> [] ->
   exists self', computeSource_Smagorinksy_SGS self kwargs = Ok self'
                 /\ adds_to_dU_only self self'
                 /\ rvec self' U = rvec self U)
  /\ (exists self', computeSourse_NonlinearModel_SGS self ∅ = Ok self'
                    /\ adds_to_dU_only self self'
                    /\ rvec self' U = rvec self U)
  /\ (exists self', computeSource_DynamicSmagorinksy_SGS self kwargs = Ok self'
                    /\ adds_to_dU_only self self'
                    /\ (forall i, rvec self' U i = irfft3 (cvec self U_hat i))
                    /\ ((forall i x, rvec self U i x = irfft3 (cvec self U_hat i) x) ->
                        forall i x, rvec self' U i x = rvec self U i x)).
Proof.
  split; [| split].
  - intros Hne. unfold computeSource_Smagorinksy_SGS. reads.
    match goal with
    | |- context [global_max ?g ?a] =>
        destruct (global_max_returns g a Hne) as [m ->]
    end.
    reads. eexists. split; [reflexivity |].
    unfold adds_to_dU_only, add_to_dU. reads.
    split; [split; [reflexivity | intros i p; reflexivity] | reflexivity].
  - unfold computeSourse_NonlinearModel_SGS.
    rewrite bool_decide_eq_true_2 by reflexivity.
    eexists. split; [reflexivity |].
    unfold adds_to_dU_only, add_to_dU. reads.
    split; [split; [reflexivity | intros i p; reflexivity] | reflexivity].
  - unfold computeSource_DynamicSmagorinksy_SGS.
    eexists. split; [reflexivity |].
    unfold adds_to_dU_only, add_to_dU. reads.
    split; [split; [reflexivity | intros i p; reflexivity] |].
    split; [intros i; reflexivity |].
    intros Hc i x. rewrite Hc. reflexivity.
Qed.

End SGS.

(** ** The coefficient of the dynamic model *)

Lemma two_ranks_slabs (r : nat) :
  slab (two_ranks r) 0 = [(0, 0, 0); (0, 1, 0)]%nat
  /\ slab (two_ranks r) 1 = [(1, 0, 0); (1, 1, 0)]%nat
  /\ Nx (two_ranks r) = 4%Z
  /\ comm_size (comm (two_ranks r)) = 2%nat.
Proof. repeat split; reflexivity. Qed.

(** C3 at a concrete input.  With two ranks, the coefficient block gives
    rank 0 the value 1 and rank 1 the value 3, each the ratio of the
    means over the rank's own slab; the ratio of the means over the whole
    domain is 2. *)
Theorem dynamic_coefficient_differs_between_ranks :
  C_s_sqr (two_ranks 0) (shear stress_by_plane) (shear (fun _ => 1)) 0 = 1
  /\ C_s_sqr (two_ranks 1) (shear stress_by_plane) (shear (fun _ => 1)) 1 = 3
  /\ C_s_sqr_global (two_ranks 0) (shear stress_by_plane) (shear (fun _ => 1)) = 2
  /\ C_s_sqr_global (two_ranks 1) (shear stress_by_plane) (shear (fun _ => 1)) = 2.
Proof.
  unfold C_s_sqr, C_s_sqr_global, global_sum, np_mean.
  destruct (two_ranks_slabs 0) as (S00 & S01 & N0 & Z0).
  destruct (two_ranks_slabs 1) as (S10 & S11 & N1 & Z1).
  rewrite ?S00, ?S01, ?S10, ?S11, ?N0, ?N1, ?Z0, ?Z1.
  unfold allreduce_SUM. cbn [seq fold_right]. rewrite ?S00, ?S01, ?S10, ?S11.
  unfold contract, shear, stress_by_plane, psum.
  cbn [fold_right coord fst snd length INR].
  repeat split; field_simplify; lra.
Qed.

(** ** Filter kernels at the zero mode *)

Section ZeroMode.

Context {E : Collaborators}.

Lemma kmag_zero_mode (self : Geometry) (p0 : idx) :
  (forall a, (a < 3)%nat -> K self a p0 = 0%Z) -> kmag self p0 = 0.
Proof.
  intros HK. unfold kmag, sum3.
  rewrite (HK 0%nat), (HK 1%nat), (HK 2%nat) by lia.
  replace (0 / (L self 0%nat / min3 (L self))) with 0 by (unfold Rdiv; ring).
  replace (0 / (L self 1%nat / min3 (L self))) with 0 by (unfold Rdiv; ring).
  replace (0 / (L self 2%nat / min3 (L self))) with 0 by (unfold Rdiv; ring).
  replace (0 ^ 2 + 0 ^ 2 + 0 ^ 2) with 0 by ring.
  apply sqrt_0.
Qed.

Lemma filter_kernel_spectral (self : Geometry) (kf : R) :
  filter_kernel self kf "spectral" None = Ok (spectral_kernel self kf).
Proof. reflexivity. Qed.

(** The sharp cut-off has unit gain at the zero mode. *)
Lemma spectral_kernel_zero_mode (self : Geometry) (kf : R) (p0 : idx) :
  (forall a, (a < 3)%nat -> K self a p0 = 0%Z) ->
  spectral_kernel self kf p0 = RtoC 1.
Proof.
  intros HK. unfold spectral_kernel, spectral_cutoff.
  rewrite (kmag_zero_mode self p0 HK).
  replace (0 / kf) with 0 by (unfold Rdiv; ring).
  rewrite Rabs_R0. destruct (Rlt_dec 0 1); [reflexivity | lra].
Qed.

(** On one process, the [comp_exp] kernel is divided by its own gain at
    the zero mode and stripped of its imaginary part: whenever that gain
    is not zero, the kernel is 1 there. *)
Lemma comp_exp_kernel_zero_mode (self : Geometry) (kf : R) :
  comm_size (comm self) = 1%nat ->
  let template : carr := fun p => RtoC (comp_exp_template (kmag self p / kf)) in
  let gain := rfft3 (fun x => irfft3 template x * irfft3 template x) (0, 0, 0)%nat in
  fst gain * fst gain + snd gain * snd gain <> 0 ->
  exists Ghat,
    filter_kernel self kf "comp_exp" None = Ok Ghat
    /\ Ghat (0, 0, 0)%nat = RtoC 1.
Proof.
  intros Hone template gain Hgain.
  eexists. split; [reflexivity |].
  cbv beta. rewrite Hone. unfold allreduce_MAX_complex, first_mode.
  cbn [Nat.sub seq fold_left]. rewrite Nat.mul_0_r.
  fold template. fold gain.
  unfold Csub, Cmul, Cinv, Cimag, Cj, RtoC. cbn [fst snd].
  f_equal; field; exact Hgain.
Qed.

(** C4 at the [tophat] kernel.  At the zero mode the normalised
    wavenumber is 0, so the entry that [filter_kernel] stores is the
    quotient of [sin(pi*0) = 0] by [pi*0**2 = 0]: not a number in IEEE
    arithmetic, and not the unit gain. *)
Theorem tophat_zero_mode_is_zero_over_zero (self : Geometry) (kf : R) (p0 : idx) :
  0 < kf ->
  (forall a, (a < 3)%nat -> K self a p0 = 0%Z) ->
  exists Ghat kappa,
    filter_kernel self kf "tophat" None = Ok Ghat
    /\ Ghat p0 = RtoC (tophat_numer kappa / tophat_denom kappa)
    /\ kappa = kmag self p0 / kf
    /\ kappa = 0
    /\ tophat_numer kappa = 0
    /\ tophat_denom kappa = 0.
Proof.
  intros Hkf HK.
  exists (fun p => RtoC (tophat_numer (kmag self p / kf) / tophat_denom (kmag self p / kf))),
         (kmag self p0 / kf).
  split; [reflexivity |]. split; [reflexivity |]. split; [reflexivity |].
  rewrite (kmag_zero_mode self p0 HK).
  replace (0 / kf) with 0 by (unfold Rdiv; ring).
  split; [reflexivity |]. split.
  - unfold tophat_numer. rewrite Rmult_0_r. apply sin_0.
  - unfold tophat_denom. ring.
Qed.

End ZeroMode.

(** ** The instance on one grid point *)

Lemma point_instance_constructed (Lv nu_ eps : R) :
  @__init__ one_point COMM_SELF (Scalar Lv) (Scalar 1%Z) nu_ "spectral"
    (Some 1) None (Some eps) zero_memory tt
  = Ok (point_instance Lv nu_ eps).
Proof. reflexivity. Qed.

Lemma point_instance_grid (Lv nu_ eps : R) :
  slab (point_instance Lv nu_ eps) 0 = [p0]
  /\ comm_size (comm (point_instance Lv nu_ eps)) = 1%nat
  /\ Nx (point_instance Lv nu_ eps) = 1%Z
  /\ (forall a, K (point_instance Lv nu_ eps) a p0 = 0%Z)
  /\ (forall i, (i < 3)%nat -> dx (point_instance Lv nu_ eps) i = Lv / 1).
Proof.
  split; [reflexivity |]. split; [reflexivity |]. split; [reflexivity |]. split.
  - intros [| [| a]]; reflexivity.
  - intros [| [| [| i]]] Hi; try reflexivity. lia.
Qed.

Lemma point_instance_filters (Lv nu_ eps : R) :
  les_filter (point_instance Lv nu_ eps) p0 = RtoC 1
  /\ (forall p, forcing_filter (point_instance Lv nu_ eps) p = RtoC 1)
  /\ forcing_rate (point_instance Lv nu_ eps) = Some eps
  /\ nu (point_instance Lv nu_ eps) = nu_
  /\ nuTmax (point_instance Lv nu_ eps) = 0.0.
Proof.
  split.
  - change (les_filter (point_instance Lv nu_ eps) p0)
      with (spectral_kernel (point_instance Lv nu_ eps) 1 p0).
    apply spectral_kernel_zero_mode. intros a _.
    apply point_instance_grid.
  - repeat split; reflexivity.
Qed.

(** On one process with a single point, the reductions read that point. *)
Lemma global_max_point (Lv nu_ eps : R) (a : rarr) :
  global_max (point_instance Lv nu_ eps) a = Ok (a p0).
Proof. reflexivity. Qed.


(** ** Instances of the theorems *)

Lemma RK4_integrate_raises_AttributeError_witness :
  exists o,
    @spectralLES one_point COMM_SELF (Scalar 1) (Scalar 1%Z) 0.01 "spectral"
      None None None zero_memory tt = Ok o
    /\ RK4_integrate o 1 [] ∅ = Raise (AttributeError "computeAD").
Proof.
  eexists. split; [reflexivity |].
  exact (proj1 (@RK4_integrate_raises_AttributeError one_point COMM_SELF
                  (Scalar 1) (Scalar 1%Z) 0.01 "spectral" None None None
                  zero_memory tt _ 1 [] ∅ eq_refl)).
Defined.

Lemma filter_3D_array_leaves_result_buffer_witness :
  two_arrays !! 0%nat = Some (RealArray (fun _ => 1))
  /\ exists h' out,
       filter_3D_array (point_instance 1 0.01 1) two_arrays 0 1 (Some 1%nat)
       = Ok (h', out)
       /\ two_arrays !! out = None
       /\ h' !! out
          = Some (RealArray (filter_3D_array_value (point_instance 1 0.01 1)
                               (fun _ => 1) 1))
       /\ (forall l w, two_arrays !! l = Some w -> h' !! l = Some w)
       /\ (forall r w, Some 1%nat = Some r -> two_arrays !! r = Some w ->
                       out <> r /\ h' !! r = Some w).
Proof.
  split; [reflexivity |].
  apply (@filter_3D_array_leaves_result_buffer one_point).
  reflexivity.
Defined.

Lemma tophat_zero_mode_is_zero_over_zero_witness :
  0 < 1
  /\ exists Ghat kappa,
       @filter_kernel one_point (two_ranks 0) 1 "tophat" None = Ok Ghat
       /\ Ghat p0 = RtoC (tophat_numer kappa / tophat_denom kappa)
       /\ kappa = kmag (two_ranks 0) p0 / 1
       /\ kappa = 0
       /\ tophat_numer kappa = 0
       /\ tophat_denom kappa = 0.
Proof.
  split; [lra |].
  apply (@tophat_zero_mode_is_zero_over_zero one_point (two_ranks 0) 1 p0);
    [lra |].
  intros [| [| a]] _; reflexivity.
Defined.

(** *** The time step on a plateau *)

Lemma flow_maxima (nu_ nuT : R) (u : nat -> R) (i : nat) :
  global_max (flow nu_ nuT u) (rvec (flow nu_ nuT u) U i) = Ok (u i).
Proof. reflexivity. Qed.


Lemma Rmin_eq_l (a b : R) : a <= b -> Rmin a b = a.
Proof. intros H. unfold Rmin. destruct (Rle_dec a b); lra. Qed.






(** *** States in which the velocity is not the transform of [U_hat] *)

(** The claim of C8 fails for the dynamic model: it changes the value of
    [U] at the grid point from 0 to 1. *)
Lemma dynamic_model_rewrites_U :
  exists self',
    computeSource_DynamicSmagorinksy_SGS spectral_only ∅ = Ok self'
    /\ rvec spectral_only U 0%nat p0 = 0
    /\ rvec self' U 0%nat p0 = 1
    /\ rvec self' U 0%nat p0 <> rvec spectral_only U 0%nat p0.
Proof.
  eexists. split; [reflexivity |].
  split; [reflexivity |]. split; [reflexivity |].
  cbn. lra.
Qed.

Lemma sgs_models_leave_velocity_witness :
  exists self',
    computeSource_Smagorinksy_SGS spectral_only ∅ = Ok self'
    /\ adds_to_dU_only spectral_only self'
    /\ rvec self' U = rvec spectral_only U.
Proof.
  apply (proj1 (@sgs_models_leave_velocity one_point spectral_only ∅)).
  discriminate.
Defined.

(** *** Forcing on a domain whose volume is not one *)

Lemma one_point_homogeneous : @irfft3_homogeneous one_point.
Proof. intros c f x. reflexivity. Qed.





(** ** The instance on two grid points *)

Lemma pair_instance_constructed (nu_ eps : R) :
  @__init__ two_point COMM_SELF (Scalar 1) (Iterable [1; 1; 2]%Z) nu_
    "spectral" (Some 2) None (Some eps) zero_memory tt
  = Ok (pair_instance nu_ eps).
Proof. reflexivity. Qed.

Lemma pair_instance_grid (nu_ eps : R) :
  slab (pair_instance nu_ eps) 0 = [p0; p1]
  /\ comm_size (comm (pair_instance nu_ eps)) = 1%nat
  /\ (forall a, K (pair_instance nu_ eps) a p0 = 0%Z)
  /\ K (pair_instance nu_ eps) 0 p1 = 0%Z
  /\ K (pair_instance nu_ eps) 1 p1 = 0%Z
  /\ K (pair_instance nu_ eps) 2 p1 = 1%Z
  /\ Ksq (pair_instance nu_ eps) p1 = 1%Z
  /\ nk (pair_instance nu_ eps) 2 = 2%Z
  /\ nu (pair_instance nu_ eps) = nu_.
Proof.
  split; [reflexivity |]. split; [reflexivity |]. split.
  - intros [| [| a]]; reflexivity.
  - repeat split; reflexivity.
Qed.

Lemma pair_instance_kmag (nu_ eps : R) :
  kmag (pair_instance nu_ eps) p0 = 0 /\ kmag (pair_instance nu_ eps) p1 = 1.
Proof.
  split.
  - apply kmag_zero_mode. intros a _. apply pair_instance_grid.
  - unfold kmag, sum3.
    destruct (pair_instance_grid nu_ eps) as (_ & _ & _ & -> & -> & -> & _).
    replace (L (pair_instance nu_ eps) 0%nat) with 1 by reflexivity.
    replace (L (pair_instance nu_ eps) 1%nat) with 1 by reflexivity.
    replace (L (pair_instance nu_ eps) 2%nat) with 1 by reflexivity.
    replace (min3 (L (pair_instance nu_ eps))) with 1.
    + replace ((0 / (1 / 1)) ^ 2 + (0 / (1 / 1)) ^ 2 + (1 / (1 / 1)) ^ 2) with 1
        by field.
      apply sqrt_1.
    + unfold min3.
      replace (L (pair_instance nu_ eps) 0%nat) with 1 by reflexivity.
      replace (L (pair_instance nu_ eps) 1%nat) with 1 by reflexivity.
      replace (L (pair_instance nu_ eps) 2%nat) with 1 by reflexivity.
      rewrite !(Rmin_eq_l 1 1) by lra. reflexivity.
Qed.

Lemma pair_instance_filters (nu_ eps : R) :
  les_filter (pair_instance nu_ eps) p0 = RtoC 1
  /\ les_filter (pair_instance nu_ eps) p1 = RtoC 1
  /\ (forall p, forcing_filter (pair_instance nu_ eps) p = RtoC 1)
  /\ forcing_rate (pair_instance nu_ eps) = Some eps.
Proof.
  destruct (pair_instance_kmag nu_ eps) as [Hk0 Hk1].
  split; [| split; [| split; [intros p; reflexivity | reflexivity]]].
  - change (les_filter (pair_instance nu_ eps) p0)
      with (RtoC (spectral_cutoff (kmag (pair_instance nu_ eps) p0 / 2))).
    rewrite Hk0. unfold spectral_cutoff.
    replace (0 / 2) with 0 by field. rewrite Rabs_R0.
    destruct (Rlt_dec 0 1); [reflexivity | lra].
  - change (les_filter (pair_instance nu_ eps) p1)
      with (RtoC (spectral_cutoff (kmag (pair_instance nu_ eps) p1 / 2))).
    rewrite Hk1. unfold spectral_cutoff.
    rewrite Rabs_pos_eq by lra.
    destruct (Rlt_dec (1 / 2) 1); [reflexivity | lra].
Qed.

Lemma global_sum3_pair (nu_ eps : R) (v : rvector) :
  global_sum3 (pair_instance nu_ eps) v
  = v 0%nat p0 + v 0%nat p1 + (v 1%nat p0 + v 1%nat p1) + (v 2%nat p0 + v 2%nat p1).
Proof.
  unfold global_sum3, allreduce_SUM.
  destruct (pair_instance_grid nu_ eps) as (Hs & -> & _).
  cbn [seq fold_right]. rewrite Hs.
  cbn [fold_right psum]. ring.
Qed.


(** *** A velocity bump on the two-point grid *)


Lemma Rpower_one (y : R) : Rpower 1 y = 1.
Proof. unfold Rpower. rewrite ln_1, Rmult_0_r. apply exp_0. Qed.





(** *** Pure diffusion of one Fourier mode *)

Lemma computeAD_at_mode (nu_ : R) (s : @state two_point) (x : R) :
  geom s = geom (pair_instance nu_ 1) ->
  cvec s U_hat 0%nat p1 = RtoC x ->
  exists s1,
    computeAD_vorticity_formulation s ∅ = Ok s1
    /\ geom s1 = geom s
    /\ les_filter s1 = les_filter s
    /\ cvec s1 U_hat = cvec s U_hat
    /\ cvec s1 U_hat0 = cvec s U_hat0
    /\ cvec s1 U_hat1 = cvec s U_hat1
    /\ cvec s1 dU 0%nat p1 = RtoC (- (nu_ * x)).
Proof.
  intros Hg Hx. eexists. split; [reflexivity |].
  reads. repeat (split; [reflexivity |]).
  cbn [rfft3 irfft3 two_point pair_rfft3 pair_irfft3 p1]. fold p0 p1.
  rewrite Hg.
  destruct (pair_instance_grid nu_ 1) as (_ & _ & HK0 & -> & -> & -> & -> & _ & ->).
  rewrite !HK0, Hx.
  unfold Csub, Cmul, Cscale, Cj, RtoC. cbn [fst snd].
  f_equal; field.
Qed.

Lemma diffusing_stage (nu_ dt : R) (rk : nat) (s : @state two_point)
    (x y x' y' : R) :
  at_mode nu_ s x y ->
  x' = (if (rk <? 3)%nat then 1 + nth rk b_rk 0 * dt * - (nu_ * x) else x) ->
  y' = y + nth rk a_rk 0 * dt * - (nu_ * x) ->
  exists s',
    RK4_stage (diffusing nu_) dt [] ∅ rk s = Ok s' /\ at_mode nu_ s' x' y'.
Proof.
  intros (Hg & Hf & Hx & H0 & H1) -> ->.
  unfold RK4_stage.
  rewrite (getattr_bound (diffusing nu_) "computeAD"
             (fun kw self => computeAD_vorticity_formulation self kw))
    by reflexivity.
  cbn [call0 bind].
  destruct (computeAD_at_mode nu_ (refresh_U s) x Hg Hx)
    as (s1 & -> & Hg1 & Hf1 & Hu & Hu0 & Hu1 & Hd).
  cbn [bind run_sources].
  change (geom (refresh_U s)) with (geom s) in Hg1.
  change (les_filter (refresh_U s)) with (les_filter s) in Hf1.
  change (cvec (refresh_U s)) with (cvec s) in Hu, Hu0, Hu1.
  assert (HP : project (K s1) (K_Ksq s1)
                 (fun i p => Cmul (cvec s1 dU i p) (les_filter s1 p)) 0%nat p1
               = RtoC (- (nu_ * x))).
  { unfold project. rewrite Hg1, Hg, Hf1, Hf, Hd.
    destruct (pair_instance_grid nu_ 1) as (_ & _ & _ & -> & _).
    unfold Csub, Cmul, Cscale, RtoC. cbn [fst snd]. f_equal; ring. }
  destruct (rk <? 3)%nat; eexists; (split; [reflexivity |]);
    unfold at_mode; reads;
    (split; [rewrite Hg1; exact Hg |]);
    (split; [rewrite Hf1; exact Hf |]);
    rewrite ?HP, ?Hu, ?Hu0, ?Hu1, ?Hx, ?H0, ?H1;
    unfold Cadd, Cscale, RtoC; cbn [fst snd];
    repeat split; f_equal; ring.
Qed.

(** The state at the start of the first stage: [U_hat0] and [U_hat1]
    hold the shear wave. *)
Lemma diffusing_start :
  at_mode 1
    (set_cvec (set_cvec (self_ (diffusing 1)) U_hat1 (cvec (self_ (diffusing 1)) U_hat))
       U_hat0
       (cvec (set_cvec (self_ (diffusing 1)) U_hat1 (cvec (self_ (diffusing 1)) U_hat))
          U_hat)) 1 1.
Proof.
  unfold at_mode. reads.
  split; [reflexivity |]. split; [apply pair_instance_filters |].
  repeat split; reflexivity.
Qed.

Lemma RK4_stages_cons {E : Collaborators} (o : solver) dt Sources kwargs rk rks
    (s s' : state) (r : outcome state) :
  RK4_stage o dt Sources kwargs rk s = Ok s' ->
  RK4_stages o dt Sources kwargs rks s' = r ->
  RK4_stages o dt Sources kwargs (rk :: rks) s = r.
Proof. intros H1 H2. cbn [RK4_stages]. rewrite H1. exact H2. Qed.

Lemma diffusing_four_stages (s : @state two_point) :
  at_mode 1 s 1 1 ->
  exists s4,
    RK4_stages (diffusing 1) 1 [] ∅ [0; 1; 2; 3]%nat s = Ok s4
    /\ at_mode 1 s4 (1 / 4) (3 / 8).
Proof.
  intros Hs.
  destruct (diffusing_stage 1 1 0 s 1 1 (1 / 2) (5 / 6) Hs) as (s1 & E1 & Hs1);
    [cbn; lra | cbn; lra |].
  destruct (diffusing_stage 1 1 1 s1 _ _ (3 / 4) (2 / 3) Hs1) as (s2 & E2 & Hs2);
    [cbn; lra | cbn; lra |].
  destruct (diffusing_stage 1 1 2 s2 _ _ (1 / 4) (5 / 12) Hs2) as (s3 & E3 & Hs3);
    [cbn; lra | cbn; lra |].
  destruct (diffusing_stage 1 1 3 s3 _ _ (1 / 4) (3 / 8) Hs3) as (s4 & E4 & Hs4);
    [cbn; lra | cbn; lra |].
  exists s4. split; [| exact Hs4].
  apply (RK4_stages_cons _ _ _ _ _ _ _ _ _ E1).
  apply (RK4_stages_cons _ _ _ _ _ _ _ _ _ E2).
  apply (RK4_stages_cons _ _ _ _ _ _ _ _ _ E3).
  apply (RK4_stages_cons _ _ _ _ _ _ _ _ _ E4).
  reflexivity.
Qed.

(** C1 at a concrete input.  One process, the grid [nx = (1, 1, 2)],
    [nu = 1], [computeAD] bound to the vorticity formulation, no source
    terms, [dt = 1], and the velocity 1 on the mode [k = (0, 0, 1)].
    [RK4_integrate] returns; the weighted sum of the four stages, 3/8 at
    that mode, is in [U_hat1]; [U_hat] holds 1/4, the value the third
    stage wrote, since no statement copies [U_hat1] into it; [U] is the
    inverse transform of the [U_hat] that is returned. *)
Theorem RK4_integrate_returns_third_stage_state :
  exists o',
    RK4_integrate (diffusing 1) 1 [] ∅ = Ok o'
    /\ cvec (self_ o') U_hat0 0%nat p1 = RtoC 1
    /\ cvec (self_ o') U_hat 0%nat p1 = RtoC (1 / 4)
    /\ cvec (self_ o') U_hat1 0%nat p1 = RtoC (3 / 8)
    /\ 3 / 8 = 1 + 1 * (1 / 6 * -1 + 1 / 3 * - (1 / 2) + 1 / 3 * - (3 / 4)
                       + 1 / 6 * - (1 / 4))
    /\ cvec (self_ o') U_hat 0%nat p1 <> cvec (self_ o') U_hat1 0%nat p1
    /\ (forall i, rvec (self_ o') U i = @irfft3 two_point (cvec (self_ o') U_hat i)).
Proof.
  destruct (diffusing_four_stages _ diffusing_start) as (s4 & E4 & Hs4).
  destruct Hs4 as (_ & _ & Hx & H0 & H1).
  eexists. split.
  - unfold RK4_integrate. cbv zeta. rewrite E4. reflexivity.
  - cbn [self_]. unfold refresh_U. reads.
    split; [exact H0 |]. split; [exact Hx |]. split; [exact H1 |].
    split; [lra |]. split.
    + rewrite Hx, H1. unfold RtoC. intros H. injection H as H. lra.
    + intros i. reflexivity.
Qed.

(** * Further properties of the solver *)

(** ** The decomposition of the grid among the processes *)

(** X1. The constructor gives rank [r] the planes
    [ixs[0] <= i < ixe[0]] of the first axis: the ranges of consecutive
    ranks abut, each holds [nx[0]//size] planes and the whole of the two
    other axes, and the last range ends at [nx[0] - nx[0] % size]; the
    ranges cover the grid exactly when [size] divides [nx[0]], otherwise
    the trailing planes belong to no process. *)
Theorem physical_slabs_abut (size : nat) (nx : nat -> Z) (L : nat -> R) (nu : R) :
  (0 < size)%nat ->
  let g := rank_geometry size nx L nu in
  ixs (g 0%nat) 0%nat = 0%Z
  /\ (forall r, ixe (g r) 0%nat = ixs (g (S r)) 0%nat)
  /\ (forall r, (ixe (g r) 0%nat - ixs (g r) 0%nat = nx 0%nat / Z.of_nat size)%Z)
  /\ (forall r a, (0 < a < 3)%nat -> ixs (g r) a = 0%Z /\ ixe (g r) a = nx a)
  /\ (ixe (g (size - 1)%nat) 0%nat = nx 0%nat - nx 0%nat mod Z.of_nat size)%Z
  /\ (ixe (g (size - 1)%nat) 0%nat = nx 0%nat <-> (Z.of_nat size | nx 0%nat)%Z).
Proof.
  intros Hsize g.
  assert (Hs : (0 < Z.of_nat size)%Z) by lia.
  assert (Hlast : (ixe (g (size - 1)%nat) 0%nat
                   = nx 0%nat - nx 0%nat mod Z.of_nat size)%Z).
  { unfold g, rank_geometry, make_geometry, upd. cbn.
    replace (Z.of_nat (size - 1)) with (Z.of_nat size - 1)%Z by lia.
    pose proof (Z.div_mod (nx 0%nat) (Z.of_nat size)). nia. }
  split; [unfold g, rank_geometry, make_geometry, upd; cbn; lia |].
  split; [intros r; unfold g, rank_geometry, make_geometry, upd; cbn; lia |].
  split; [intros r; unfold g, rank_geometry, make_geometry, upd; cbn; lia |].
  split.
  { intros r [| [| [| a]]] Ha; try lia; split; reflexivity. }
  split; [exact Hlast |].
  rewrite Hlast. split.
  - intros H. apply Z.mod_divide; lia.
  - intros H. apply Z.mod_divide in H; lia.
Qed.

Lemma physical_slabs_abut_witness :
  (0 < 2)%nat
  /\ let g := rank_geometry 2 (of_list3 0%Z [5; 4; 4]%Z) (of_list3 0 [1; 1; 1]) 0.01 in
     ixs (g 0%nat) 0%nat = 0%Z
     /\ (forall r, ixe (g r) 0%nat = ixs (g (S r)) 0%nat)
     /\ (forall r, (ixe (g r) 0%nat - ixs (g r) 0%nat
                    = of_list3 0%Z [5; 4; 4]%Z 0%nat / Z.of_nat 2)%Z)
     /\ (forall r a, (0 < a < 3)%nat ->
                     ixs (g r) a = 0%Z /\ ixe (g r) a = of_list3 0%Z [5; 4; 4]%Z a)
     /\ (ixe (g (2 - 1)%nat) 0%nat
         = of_list3 0%Z [5; 4; 4]%Z 0%nat - of_list3 0%Z [5; 4; 4]%Z 0%nat mod Z.of_nat 2)%Z
     /\ (ixe (g (2 - 1)%nat) 0%nat = of_list3 0%Z [5; 4; 4]%Z 0%nat
         <-> (Z.of_nat 2 | of_list3 0%Z [5; 4; 4]%Z 0%nat)%Z).
Proof.
  split; [lia |].
  apply (physical_slabs_abut 2 (of_list3 0%Z [5; 4; 4]%Z) (of_list3 0 [1; 1; 1]) 0.01).
  lia.
Defined.

(** X2. In spectral space the last axis keeps the [nx[2]//2 + 1]
    non-negative modes of the real transform and the second axis is the
    one that is shared: rank [r] holds the modes
    [iks[1] <= j < ike[1]], [nx[1]//size] of them, consecutive ranks
    abut, and the ranges cover the axis exactly when [size] divides
    [nx[1]]. *)
Theorem spectral_slabs_abut (size : nat) (nx : nat -> Z) (L : nat -> R) (nu : R) :
  (0 < size)%nat ->
  let g := rank_geometry size nx L nu in
  (forall r, nk (g r) 0%nat = nx 0%nat /\ nk (g r) 1%nat = nx 1%nat
             /\ nk (g r) 2%nat = (nx 2%nat / 2 + 1)%Z)
  /\ iks (g 0%nat) 1%nat = 0%Z
  /\ (forall r, ike (g r) 1%nat = iks (g (S r)) 1%nat)
  /\ (forall r, (ike (g r) 1%nat - iks (g r) 1%nat = nx 1%nat / Z.of_nat size)%Z)
  /\ (forall r, iks (g r) 0%nat = 0%Z /\ ike (g r) 0%nat = nx 0%nat
                /\ iks (g r) 2%nat = 0%Z /\ ike (g r) 2%nat = (nx 2%nat / 2 + 1)%Z)
  /\ (ike (g (size - 1)%nat) 1%nat = nx 1%nat <-> (Z.of_nat size | nx 1%nat)%Z).
Proof.
  intros Hsize g.
  assert (Hs : (0 < Z.of_nat size)%Z) by lia.
  assert (Hlast : (ike (g (size - 1)%nat) 1%nat
                   = nx 1%nat - nx 1%nat mod Z.of_nat size)%Z).
  { unfold g, rank_geometry, make_geometry, upd. cbn.
    replace (Z.of_nat (size - 1)) with (Z.of_nat size - 1)%Z by lia.
    pose proof (Z.div_mod (nx 1%nat) (Z.of_nat size)). nia. }
  split; [intros r; repeat split; reflexivity |].
  split; [unfold g, rank_geometry, make_geometry, upd; cbn; lia |].
  split; [intros r; unfold g, rank_geometry, make_geometry, upd; cbn; lia |].
  split; [intros r; unfold g, rank_geometry, make_geometry, upd; cbn; lia |].
  split; [intros r; unfold g, rank_geometry, make_geometry, upd; cbn; lia |].
  rewrite Hlast. split.
  - intros H. apply Z.mod_divide; lia.
  - intros H. apply Z.mod_divide in H; lia.
Qed.

Lemma spectral_slabs_abut_witness :
  let g := rank_geometry 2 (of_list3 0%Z [4; 5; 4]%Z) (of_list3 0 [1; 1; 1]) 0.01 in
  (forall r, nk (g r) 2%nat = 3%Z)
  /\ (forall r, ike (g r) 1%nat = iks (g (S r)) 1%nat)
  /\ ike (g 1%nat) 1%nat = 4%Z.
Proof.
  intros g.
  destruct (spectral_slabs_abut 2 (of_list3 0%Z [4; 5; 4]%Z) (of_list3 0 [1; 1; 1])
              0.01 ltac:(lia)) as (Hnk & _ & Habut & _).
  split; [intros r; apply (Hnk r) |]. split; [exact Habut | reflexivity].
Defined.

(** ** The wavevectors *)








(** ** What the constructor leaves on the instance *)

Lemma sqrt2_bounds : 1.4142 < sqrt 2 < 1.4143.
Proof.
  split.
  - rewrite <- (sqrt_pow2 1.4142) by lra. apply sqrt_lt_1; lra.
  - rewrite <- (sqrt_pow2 1.4143) by lra. apply sqrt_lt_1; lra.
Qed.

(** [floor] of a real between two consecutive integers. *)
Lemma Int_part_between (r : R) (z : Z) :
  IZR z <= r < IZR z + 1 -> Int_part r = z.
Proof. intros H. symmetry. apply Int_part_spec. lra. Qed.

Lemma Int_part_ge (r : R) (z : Z) : IZR z <= r -> (z <= Int_part r)%Z.
Proof.
  intros H. destruct (base_Int_part r) as [_ Hb].
  assert (Hlt : IZR z < IZR (Int_part r) + 1) by lra.
  rewrite <- plus_IZR in Hlt. apply lt_IZR in Hlt. lia.
Qed.

Lemma default_scales_small_grid (n : Z) :
  (0 <= n)%Z ->
  (default_les_scale n = 0 <-> (n <= 2)%Z)
  /\ (default_test_scale n = 0 <-> (n <= 4)%Z).
Proof.
  intros Hn. pose proof sqrt2_bounds as [Hlo Hhi].
  apply IZR_le in Hn.
  assert (Hr : 0 <= sqrt 2 * IZR n / 3) by nra.
  split; split.
  - intros H. unfold default_les_scale in H. apply eq_IZR in H.
    destruct (Z_le_gt_dec n 2) as [Hle | Hgt]; [exact Hle | exfalso].
    assert (H3 : 3 <= IZR n) by (apply IZR_le; lia).
    pose proof (Int_part_ge (sqrt 2 * IZR n / 3) 1 ltac:(nra)). lia.
  - intros H. apply IZR_le in H. unfold default_les_scale.
    rewrite (Int_part_between _ 0); [reflexivity |]. nra.
  - intros H. unfold default_test_scale in H. apply eq_IZR in H.
    destruct (Z_le_gt_dec n 4) as [Hle | Hgt]; [exact Hle | exfalso].
    assert (H5 : 5 <= IZR n) by (apply IZR_le; lia).
    pose proof (Int_part_ge (sqrt 2 * IZR n / 3) 2 ltac:(nra)) as H2.
    apply IZR_le in H2. fold (default_les_scale n) in H2.
    pose proof (Int_part_ge (0.5 * default_les_scale n) 1 ltac:(lra)). lia.
  - intros H. apply IZR_le in H. unfold default_test_scale.
    assert (Hles : 0 <= default_les_scale n <= 1).
    { unfold default_les_scale. split.
      - apply IZR_le, (Int_part_ge _ 0). exact Hr.
      - destruct (base_Int_part (sqrt 2 * IZR n / 3)) as [Hb _].
        assert (Hlt : IZR (Int_part (sqrt 2 * IZR n / 3)) < 2) by nra.
        apply lt_IZR in Hlt. apply IZR_le. lia. }
    rewrite (Int_part_between _ 0); [reflexivity |]. lra.
Qed.

Section Construction.

Context {E : Collaborators}.

(** The attributes of a freshly constructed instance that the later
    methods read. *)
Lemma __init___returns comm L_arg nx_arg nu Gtype les test eps mem rng self :
  __init__ comm L_arg nx_arg nu Gtype les test eps mem rng = Ok self ->
  exists nx3 L3,
    three "nx" nx_arg = Ok nx3 /\ three "L" L_arg = Ok L3
    /\ geom self = make_geometry comm (of_list3 0%Z nx3) (of_list3 0 L3) nu
    /\ filter_kernel self (les_scale self) Gtype None = Ok (les_filter self)
    /\ filter_kernel self (test_scale self) Gtype None = Ok (test_filter self)
    /\ (forall p, forcing_filter self p = RtoC 1)
    /\ forcing_rate self = eps
    /\ nuTmax self = 0
    /\ (forall i p, cvec self S_hat i p = RtoC 0)
    /\ 0 <= smag_coef self.
Proof.
  unfold __init__. intros H.
  destruct (three "nx" nx_arg) as [nx3 |]; [| discriminate].
  destruct (three "L" L_arg) as [L3 |]; [| discriminate].
  cbn [bind] in H.
  match type of H with
  | context [filter_kernel ?g ?k Gtype None] =>
      destruct (filter_kernel g k Gtype None) as [lf |] eqn:Hlf; [| discriminate]
  end.
  cbn [bind] in H.
  match type of H with
  | context [bind (filter_kernel ?g ?k Gtype None)] =>
      destruct (filter_kernel g k Gtype None) as [tf |] eqn:Htf; [| discriminate]
  end.
  cbn [bind] in H. injection H as <-.
  exists nx3, L3. reads.
  split; [reflexivity |]. split; [reflexivity |]. split; [reflexivity |].
  split; [exact Hlf |]. split; [exact Htf |].
  split; [reflexivity |]. split; [reflexivity |].
  split; [lra |]. split; [reflexivity |].
  apply Rmult_le_pos; [lra |]. apply pow2_ge_0.
Qed.

(** X5. When the scales are left to their defaults, the constructor
    sets [test_scale] to zero exactly on the grids whose smallest side
    has at most 4 points, and [les_scale] to zero exactly when it has at
    most 2: on such grids the filter widths [D_test = L.min()/test_scale]
    and [D] are quotients by zero. *)
Theorem default_scales_vanish_on_small_grids
    comm L_arg nx_arg nu Gtype eps mem rng (self : state) :
  __init__ comm L_arg nx_arg nu Gtype None None eps mem rng = Ok self ->
  (0 <= zmin3 (nx self))%Z ->
  (les_scale self = 0 <-> (zmin3 (nx self) <= 2)%Z)
  /\ (test_scale self = 0 <-> (zmin3 (nx self) <= 4)%Z).
Proof.
  unfold __init__. intros H Hn.
  destruct (three "nx" nx_arg) as [nx3 |]; [| discriminate].
  destruct (three "L" L_arg) as [L3 |]; [| discriminate].
  cbn [bind] in H.
  match type of H with
  | context [filter_kernel ?g ?k Gtype None] =>
      destruct (filter_kernel g k Gtype None) as [lf |]; [| discriminate]
  end.
  cbn [bind] in H.
  match type of H with
  | context [bind (filter_kernel ?g ?k Gtype None)] =>
      destruct (filter_kernel g k Gtype None) as [tf |]; [| discriminate]
  end.
  cbn [bind] in H. injection H as <-. revert Hn. reads. intros Hn.
  apply (default_scales_small_grid _ Hn).
Qed.

End Construction.

Lemma default_scales_vanish_on_small_grids_witness :
  (0 <= zmin3 (nx default_point))%Z
  /\ (les_scale default_point = 0 <-> (zmin3 (nx default_point) <= 2)%Z)
  /\ (test_scale default_point = 0 <-> (zmin3 (nx default_point) <= 4)%Z).
Proof.
  assert (Hn : (0 <= zmin3 (nx default_point))%Z).
  { assert (H1 : zmin3 (nx default_point) = 1%Z) by reflexivity. rewrite H1. lia. }
  split; [exact Hn |].
  apply (@default_scales_vanish_on_small_grids one_point COMM_SELF (Scalar 1)
           (Scalar 1%Z) 0.01 "spectral" None zero_memory tt default_point);
    [reflexivity | exact Hn].
Defined.

(** ** Filter kernels *)

Section Kernels.

Context {E : Collaborators}.

Lemma kmag_nonneg (self : Geometry) (p : idx) : 0 <= kmag self p.
Proof. unfold kmag. apply sqrt_pos. Qed.

Lemma spectral_cutoff_ratio (k kf : R) :
  0 <= k -> 0 < kf ->
  spectral_cutoff (k / kf) = if Rlt_dec k kf then 1 else 0.
Proof.
  intros Hk Hkf. unfold spectral_cutoff.
  assert (Hq : 0 <= k / kf)
    by (unfold Rdiv; apply Rmult_le_pos;
        [exact Hk | left; apply Rinv_0_lt_compat; exact Hkf]).
  rewrite (Rabs_pos_eq _ Hq).
  destruct (Rlt_dec (k / kf) 1) as [Hl | Hl]; destruct (Rlt_dec k kf) as [Hr | Hr];
    try reflexivity; exfalso.
  - apply Hr. apply (Rmult_lt_compat_r kf) in Hl; [| exact Hkf].
    unfold Rdiv in Hl. rewrite Rmult_assoc, Rinv_l, Rmult_1_r, Rmult_1_l in Hl; lra.
  - apply Hl. apply (Rmult_lt_reg_r kf); [exact Hkf |].
    unfold Rdiv. rewrite Rmult_assoc, Rinv_l, Rmult_1_r, Rmult_1_l; lra.
Qed.

(** X6. The sharp [spectral] kernels with positive cut-offs take the
    values 0 and 1 only, so each is idempotent under the mode-by-mode
    product that filtering applies, and the product of two of them is
    the kernel of the smaller cut-off: filtering at the test scale what
    was filtered at the LES scale is filtering at the smaller scale. *)
Theorem spectral_kernels_compose (self : Geometry) (kf1 kf2 : R) :
  0 < kf1 -> 0 < kf2 ->
  exists G1 G2 G12,
    filter_kernel self kf1 "spectral" None = Ok G1
    /\ filter_kernel self kf2 "spectral" None = Ok G2
    /\ filter_kernel self (Rmin kf1 kf2) "spectral" None = Ok G12
    /\ (forall p, Cmul (G1 p) (G2 p) = G12 p)
    /\ (forall p, Cmul (G1 p) (G1 p) = G1 p)
    /\ (forall p, G1 p = RtoC 1 \/ G1 p = RtoC 0).
Proof.
  intros H1 H2.
  assert (H12 : 0 < Rmin kf1 kf2) by (apply Rmin_glb_lt; assumption).
  do 3 eexists.
  split; [reflexivity |]. split; [reflexivity |]. split; [reflexivity |].
  split; [| split].
  - intros p. cbv beta.
    rewrite !spectral_cutoff_ratio by (try apply kmag_nonneg; assumption).
    unfold Rmin.
    destruct (Rlt_dec (kmag self p) kf1), (Rlt_dec (kmag self p) kf2),
      (Rle_dec kf1 kf2);
      match goal with
      | |- context [Rlt_dec ?a ?b] => destruct (Rlt_dec a b)
      end; unfold Cmul, RtoC; cbn [fst snd]; try (f_equal; ring); exfalso; lra.
  - intros p. cbv beta.
    rewrite !spectral_cutoff_ratio by (try apply kmag_nonneg; assumption).
    destruct (Rlt_dec (kmag self p) kf1); unfold Cmul, RtoC; cbn [fst snd];
      f_equal; ring.
  - intros p. cbv beta. unfold spectral_cutoff.
    destruct (Rlt_dec _ 1); [left | right]; reflexivity.
Qed.

(** X7. On one process, whenever the zero-mode gain of the squared
    physical-space template is not zero, the [comp_exp] kernel is real
    at every mode (its imaginary part is subtracted) and equal to 1 at
    the zero mode (it is divided by that gain). *)
Theorem comp_exp_kernel_real_with_unit_gain (self : Geometry) (kf : R) :
  comm_size (comm self) = 1%nat ->
  let template : carr := fun p => RtoC (comp_exp_template (kmag self p / kf)) in
  let gain := rfft3 (fun x => irfft3 template x * irfft3 template x) (0, 0, 0)%nat in
  fst gain * fst gain + snd gain * snd gain <> 0 ->
  exists Ghat,
    filter_kernel self kf "comp_exp" None = Ok Ghat
    /\ (forall p, Cimag (Ghat p) = 0)
    /\ Ghat (0, 0, 0)%nat = RtoC 1.
Proof.
  intros Hone template gain Hgain.
  eexists. split; [reflexivity |]. split.
  - intros p. unfold Csub, Cmul, Cimag, Cj, RtoC. cbn [fst snd]. ring.
  - cbv beta. rewrite Hone. unfold allreduce_MAX_complex, first_mode.
    cbn [Nat.sub seq fold_left]. rewrite Nat.mul_0_r.
    fold template. fold gain.
    unfold Csub, Cmul, Cinv, Cimag, Cj, RtoC. cbn [fst snd].
    f_equal; field; exact Hgain.
Qed.

(** X8. On an instance constructed with [Gtype='spectral'] the three
    branches of [filter_3D_array] agree: whatever the scale, the array
    returned is the inverse transform of the transform of the input
    times the sharp kernel of that scale. *)
Theorem filter_3D_array_on_spectral_instance
    comm L_arg nx_arg nu les test eps mem rng (self : state)
    (array : rarr) (scale_k : R) :
  __init__ comm L_arg nx_arg nu "spectral" les test eps mem rng = Ok self ->
  filter_3D_array_value self array scale_k
  = irfft3 (fun p => Cmul (rfft3 array p) (spectral_kernel self scale_k p)).
Proof.
  intros H.
  destruct (__init___returns _ _ _ _ _ _ _ _ _ _ _ H)
    as (nx3 & L3 & _ & _ & _ & Hlf & Htf & _).
  rewrite filter_kernel_spectral in Hlf, Htf.
  injection Hlf as Hlf. injection Htf as Htf.
  unfold filter_3D_array_value.
  destruct (Req_dec_T scale_k (les_scale self)) as [-> | _].
  - rewrite <- Hlf. reflexivity.
  - destruct (Req_dec_T scale_k (test_scale self)) as [-> | _].
    + rewrite <- Htf. reflexivity.
    + reflexivity.
Qed.

End Kernels.

Lemma spectral_kernels_compose_witness :
  0 < 2 /\ 0 < 1
  /\ exists G1 G2 G12,
       @filter_kernel one_point (two_ranks 0) 2 "spectral" None = Ok G1
       /\ @filter_kernel one_point (two_ranks 0) 1 "spectral" None = Ok G2
       /\ @filter_kernel one_point (two_ranks 0) (Rmin 2 1) "spectral" None = Ok G12
       /\ (forall p, Cmul (G1 p) (G2 p) = G12 p)
       /\ (forall p, Cmul (G1 p) (G1 p) = G1 p)
       /\ (forall p, G1 p = RtoC 1 \/ G1 p = RtoC 0).
Proof.
  split; [lra |]. split; [lra |].
  apply (@spectral_kernels_compose one_point (two_ranks 0) 2 1); lra.
Defined.

Lemma comp_exp_kernel_real_with_unit_gain_witness :
  exists Ghat,
    @filter_kernel one_point (point_instance 1 0.01 1) 1 "comp_exp" None = Ok Ghat
    /\ (forall p, Cimag (Ghat p) = 0)
    /\ Ghat (0, 0, 0)%nat = RtoC 1.
Proof.
  apply (@comp_exp_kernel_real_with_unit_gain one_point (point_instance 1 0.01 1) 1).
  - reflexivity.
  - cbn [rfft3 irfft3 one_point RtoC fst snd].
    assert (Hk : kmag (point_instance 1 0.01 1) (0, 0, 0)%nat = 0).
    { apply kmag_zero_mode. intros a _. apply point_instance_grid. }
    rewrite Hk. unfold comp_exp_template.
    replace (0 / 1) with 0 by field.
    destruct (Rlt_dec 0 0.5) as [_ | Hn]; [| exfalso; lra].
    replace (- 0 ^ 2 / (0.25 - 0 ^ 2)) with 0 by (field; lra).
    rewrite exp_0. lra.
Defined.

Lemma filter_3D_array_on_spectral_instance_witness :
  filter_3D_array_value (point_instance 1 0.01 1) (fun _ => 1) 3
  = @irfft3 one_point
      (fun p => Cmul (@rfft3 one_point (fun _ => 1) p)
                     (spectral_kernel (point_instance 1 0.01 1) 3 p)).
Proof.
  apply (@filter_3D_array_on_spectral_instance one_point COMM_SELF (Scalar 1)
           (Scalar 1%Z) 0.01 (Some 1) None (Some 1) zero_memory tt).
  apply point_instance_constructed.
Defined.

(** ** Initial conditions and the random spectrum *)

Section Spectrum.

Context {E : Collaborators}.


(** X10. For a non-zero [k_peak], [get_random_HIT_spectrum] leaves
    [S_hat] at zero at every mode whose wavenumber is below 1 (the mean
    mode among them) and at every mode that the LES filter removes,
    whatever the generator drew. *)
Theorem random_spectrum_unexcited_modes (self : state) (k_exp k_peak : R)
    (rseed : pyval) (i : nat) (p : idx) :
  k_peak <> 0 ->
  kmag self p < 1 \/ les_filter self p = RtoC 0 ->
  cvec (get_random_HIT_spectrum self k_exp k_peak rseed) S_hat i p = RtoC 0.
Proof.
  intros _ Hp. unfold get_random_HIT_spectrum.
  destruct (np_random_rand _) as [q1 rng1].
  destruct (np_random_randn _) as [q2 rng2].
  reads. destruct Hp as [Hk | Hf].
  - destruct (Rlt_dec (kmag self p) 1.0) as [_ | Hn]; [| exfalso; lra].
    unfold Cmul, Cscale, Cadd, Cj, RtoC. cbn [fst snd]. f_equal; lra.
  - rewrite Hf. unfold Cmul, Cscale, Cadd, Cj, RtoC. cbn [fst snd]. f_equal; ring.
Qed.

(** X11. A seed that is an [int] greater than zero re-seeds the
    generator, so the spectrum drawn does not depend on the state the
    generator was in; a seed that is zero, negative, a float or a string
    is ignored like [None], and the draw continues the current
    stream. *)
Theorem random_spectrum_seeding (self : state) (k_exp k_peak : R) :
  (forall z s, (0 < z)%Z ->
     cvec (get_random_HIT_spectrum (set_np_random self s) k_exp k_peak (PyInt z)) S_hat
     = cvec (get_random_HIT_spectrum self k_exp k_peak (PyInt z)) S_hat)
  /\ (forall z, (z <= 0)%Z ->
        get_random_HIT_spectrum self k_exp k_peak (PyInt z)
        = get_random_HIT_spectrum self k_exp k_peak PyNone)
  /\ (forall x, get_random_HIT_spectrum self k_exp k_peak (PyFloat x)
                = get_random_HIT_spectrum self k_exp k_peak PyNone)
  /\ (forall s, get_random_HIT_spectrum self k_exp k_peak (PyStr s)
                = get_random_HIT_spectrum self k_exp k_peak PyNone).
Proof.
  split; [| split; [| split]].
  - intros z s Hz. unfold get_random_HIT_spectrum.
    destruct (Z.ltb_spec 0 z); [| lia].
    destruct (np_random_rand _) as [q1 rng1].
    destruct (np_random_randn _) as [q2 rng2].
    reads. reflexivity.
  - intros z Hz. unfold get_random_HIT_spectrum.
    destruct (Z.ltb_spec 0 z); [lia | reflexivity].
  - reflexivity.
  - reflexivity.
Qed.

(** X12. When the projected random field has positive energy,
    [Initialize_HIT_random_spectrum] returns a velocity whose squares,
    summed over the three components and averaged over the [Nx] grid
    points, equal [Urms**2]; [U_hat] is the transform of that velocity,
    and the spectrum left in [S_hat] is divergence-free. *)
Theorem Initialize_HIT_random_spectrum_rms (self : state) (Urms k_exp k_peak : R)
    (rseed : pyval) :
  let self' := Initialize_HIT_random_spectrum self Urms k_exp k_peak rseed in
  let energy := global_sum3 self (fun i x => irfft3 (cvec self' S_hat i) x ^ 2) in
  K_Ksq self = make_K_Ksq (K self) ->
  k_peak <> 0 ->
  (0 < Nx self)%Z ->
  0 < energy ->
  geom self' = geom self
  /\ global_sum3 self' (fun i x => rvec self' U i x ^ 2) = Urms ^ 2 * IZR (Nx self)
  /\ (forall i, cvec self' U_hat i = rfft3 (rvec self' U i))
  /\ (forall p, spectral_divergence (K self) (cvec self' S_hat) p = RtoC 0).
Proof.
  intros self' energy HK _ HN He.
  destruct (get_random_HIT_spectrum_frame self k_exp k_peak rseed)
    as (Hg & _).
  assert (Hg' : geom self' = geom self) by exact Hg.
  split; [exact Hg' |]. split; [| split].
  - rewrite Hg'.
    set (scale := Urms * sqrt (IZR (Nx self) / energy)).
    rewrite (global_sum3_scale self (scale ^ 2)
               (fun i x => irfft3 (cvec self' S_hat i) x ^ 2)).
    + fold energy. unfold scale. rewrite Rpow_mult_distr.
      rewrite pow2_sqrt.
      * field. lra.
      * apply Rlt_le, Rdiv_lt_0_compat; [apply IZR_lt; exact HN | exact He].
    + intros i x. unfold scale, energy, self', Initialize_HIT_random_spectrum. reads.
      rewrite Hg. ring.
  - intros i. reflexivity.
  - intros p. unfold self', Initialize_HIT_random_spectrum. reads.
    rewrite Hg, HK. apply project_divergence.
Qed.

End Spectrum.

Lemma random_spectrum_unexcited_modes_witness :
  2 <> 0
  /\ (kmag (pair_instance 0.01 1) p0 < 1 \/ les_filter (pair_instance 0.01 1) p0 = RtoC 0)
  /\ cvec (get_random_HIT_spectrum (pair_instance 0.01 1) (-5 / 3) 2 PyNone) S_hat
       0%nat p0
     = RtoC 0.
Proof.
  assert (H : kmag (pair_instance 0.01 1) p0 < 1
              \/ les_filter (pair_instance 0.01 1) p0 = RtoC 0).
  { left. rewrite (proj1 (pair_instance_kmag 0.01 1)). lra. }
  assert (H2 : 2 <> 0) by lra.
  split; [exact H2 |]. split; [exact H |].
  apply (@random_spectrum_unexcited_modes two_point (pair_instance 0.01 1)
           (-5 / 3) 2 PyNone 0%nat p0 H2 H).
Defined.

Lemma random_spectrum_seeding_witness :
  (0 < 7)%Z
  /\ cvec (get_random_HIT_spectrum (set_np_random (pair_instance 0.01 1) tt) (-5 / 3) 2
             (PyInt 7)) S_hat
     = cvec (get_random_HIT_spectrum (pair_instance 0.01 1) (-5 / 3) 2 (PyInt 7)) S_hat.
Proof.
  split; [lia |].
  apply (proj1 (@random_spectrum_seeding two_point (pair_instance 0.01 1) (-5 / 3) 2)).
  lia.
Defined.

Lemma pair_spectrum :
  cvec (@Initialize_HIT_random_spectrum two_point (pair_instance 0.01 1) 1 (-5 / 3) 2
          PyNone) S_hat 0%nat p0 = RtoC 0
  /\ cvec (@Initialize_HIT_random_spectrum two_point (pair_instance 0.01 1) 1 (-5 / 3) 2
             PyNone) S_hat 0%nat p1 = RtoC (exp (- 1 / 2)).
Proof.
  unfold Initialize_HIT_random_spectrum, get_random_HIT_spectrum.
  cbn [np_random_rand np_random_randn two_point]. reads.
  unfold project.
  destruct (pair_instance_grid 0.01 1) as (_ & _ & HK0 & -> & _).
  rewrite HK0.
  destruct (pair_instance_kmag 0.01 1) as [-> ->].
  destruct (pair_instance_filters 0.01 1) as (-> & -> & _).
  replace (2 * PI * 0) with 0 by ring. rewrite cos_0, sin_0, Rpower_one.
  destruct (Rlt_dec 0 1.0) as [_ | Hn]; [| exfalso; lra].
  destruct (Rlt_dec 1 1.0) as [Hy | _]; [exfalso; lra |].
  unfold Csub, Cmul, Cscale, Cadd, RtoC, Cj, csum3. cbn [fst snd].
  replace 0.0 with 0 by lra.
  replace (- (1) / 2) with (-1 / 2) by lra.
  split; f_equal; ring.
Qed.

Lemma Initialize_HIT_random_spectrum_rms_witness :
  let self' := @Initialize_HIT_random_spectrum two_point (pair_instance 0.01 1) 1
                 (-5 / 3) 2 PyNone in
  geom self' = geom (pair_instance 0.01 1)
  /\ global_sum3 self' (fun i x => rvec self' U i x ^ 2)
     = 1 ^ 2 * IZR (Nx (pair_instance 0.01 1))
  /\ (forall i, cvec self' U_hat i = @rfft3 two_point (rvec self' U i))
  /\ (forall p, spectral_divergence (K (pair_instance 0.01 1)) (cvec self' S_hat) p
                = RtoC 0).
Proof.
  apply (@Initialize_HIT_random_spectrum_rms two_point (pair_instance 0.01 1) 1
           (-5 / 3) 2 PyNone).
  - reflexivity.
  - lra.
  - reflexivity.
  - rewrite global_sum3_pair.
    cbn [irfft3 two_point pair_irfft3 p0 p1]. fold p0 p1.
    destruct pair_spectrum as [-> ->].
    pose proof (exp_pos (- 1 / 2)) as He.
    cbn [fst RtoC].
    set (S := cvec _ S_hat).
    assert (H1 : 0 <= ((fst (S 1%nat p0) + fst (S 1%nat p1)) / 2) ^ 2) by apply pow2_ge_0.
    assert (H2 : 0 <= ((fst (S 1%nat p0) - fst (S 1%nat p1)) / 2) ^ 2) by apply pow2_ge_0.
    assert (H3 : 0 <= ((fst (S 2%nat p0) + fst (S 2%nat p1)) / 2) ^ 2) by apply pow2_ge_0.
    assert (H4 : 0 <= ((fst (S 2%nat p0) - fst (S 2%nat p1)) / 2) ^ 2) by apply pow2_ge_0.
    assert (H5 : 0 <= ((0 - exp (-1 / 2)) / 2) ^ 2) by apply pow2_ge_0.
    assert (H6 : 0 < ((0 + exp (-1 / 2)) / 2) ^ 2).
    { apply pow_lt. lra. }
    lra.
Defined.

(** ** Keyword arguments of the forcing terms *)

Section ForcingArguments.

Context {E : Collaborators}.

(** X13. The random forcing reads [kwargs['random_seed']]: without that
    key it raises [KeyError], and no other keyword argument changes its
    outcome.  The linear forcing ignores every keyword argument.  On an
    instance whose injection rate is [None] (the constructor's default)
    both forcing terms raise [TypeError] when they divide the rate. *)
Theorem forcing_keyword_arguments (self : state) :
  (forall kwargs, kwargs !! "random_seed" = None ->
     computeSource_HIT_random_forcing self kwargs = Raise (KeyError "random_seed"))
  /\ (forall kwargs kwargs',
        kwargs !! "random_seed" = kwargs' !! "random_seed" ->
        computeSource_HIT_random_forcing self kwargs
        = computeSource_HIT_random_forcing self kwargs')
  /\ (forall kwargs kwargs',
        computeSource_HIT_linear_forcing self kwargs
        = computeSource_HIT_linear_forcing self kwargs')
  /\ (forcing_rate self = None ->
      forall kwargs,
        (exists msg, computeSource_HIT_linear_forcing self kwargs = Raise (TypeError msg))
        /\ (forall rseed, kwargs !! "random_seed" = Some rseed ->
              exists msg,
                computeSource_HIT_random_forcing self kwargs = Raise (TypeError msg))).
Proof.
  split; [| split; [| split]].
  - intros kwargs H. unfold computeSource_HIT_random_forcing. rewrite H. reflexivity.
  - intros kwargs kwargs' H. unfold computeSource_HIT_random_forcing. rewrite H.
    reflexivity.
  - reflexivity.
  - intros Hrate kwargs. split.
    + unfold computeSource_HIT_linear_forcing, dvScale. reads. rewrite Hrate.
      eexists. reflexivity.
    + intros rseed Hseed. unfold computeSource_HIT_random_forcing, dvScale.
      rewrite Hseed. reads.
      rewrite (proj1 (proj2 (proj2 (get_random_HIT_spectrum_frame self _ _ rseed)))).
      rewrite Hrate. eexists. reflexivity.
Qed.

End ForcingArguments.

Lemma forcing_keyword_arguments_witness :
  (∅ : gmap string pyval) !! "random_seed" = None
  /\ computeSource_HIT_random_forcing unforced ∅ = Raise (KeyError "random_seed")
  /\ forcing_rate unforced = None
  /\ (exists msg, computeSource_HIT_linear_forcing unforced ∅ = Raise (TypeError msg))
  /\ (exists msg,
        computeSource_HIT_random_forcing unforced {["random_seed" := PyInt 1]}
        = Raise (TypeError msg)).
Proof.
  destruct (@forcing_keyword_arguments one_point unforced) as (Hkey & _ & _ & Hrate).
  split; [reflexivity |].
  split; [apply Hkey; reflexivity |].
  split; [reflexivity |].
  destruct (Hrate eq_refl ∅) as [Hlin _].
  destruct (Hrate eq_refl {["random_seed" := PyInt 1]}) as [_ Hrand].
  split; [exact Hlin |].
  apply (Hrand (PyInt 1)). reflexivity.
Defined.

(** ** Reductions over the distributed grid *)

Lemma fold_left_Rmax_ge {T : Type} (f : T -> R) (l : list T) (m : R) :
  m <= fold_left (fun m q => Rmax m (f q)) l m
  /\ forall q, q ∈ l -> f q <= fold_left (fun m q => Rmax m (f q)) l m.
Proof.
  revert m. induction l as [| a l IH]; intros m; cbn [fold_left].
  - split; [lra |]. intros q Hq. inversion Hq.
  - destruct (IH (Rmax m (f a))) as [H1 H2]. split.
    + pose proof (Rmax_l m (f a)). lra.
    + intros q Hq. apply elem_of_cons in Hq as [-> | Hq].
      * pose proof (Rmax_r m (f a)). lra.
      * apply H2, Hq.
Qed.

Lemma np_max_ge (a : rarr) (pts : list idx) (m : R) :
  np_max a pts = Ok m -> forall x, x ∈ pts -> a x <= m.
Proof.
  destruct pts as [| p rest]; [discriminate |].
  cbn [np_max]. intros H. injection H as <-.
  destruct (fold_left_Rmax_ge a rest (a p)) as [H1 H2].
  intros x Hx. apply elem_of_cons in Hx as [-> | Hx]; [exact H1 | apply H2, Hx].
Qed.

Lemma allreduce_MAX_ge (size : nat) (v : nat -> R) (r : nat) :
  (r < size)%nat -> v r <= allreduce_MAX size v.
Proof.
  intros Hr. unfold allreduce_MAX.
  destruct (fold_left_Rmax_ge v (seq 1 (size - 1)) (v 0%nat)) as [H1 H2].
  destruct r as [| r]; [exact H1 |].
  apply H2. apply elem_of_seq. lia.
Qed.

Lemma bind_length_const {T V : Type} (l : list T) (f : T -> list V) (n : nat) :
  (forall a, length (f a) = n) -> length (l ≫= f) = (length l * n)%nat.
Proof.
  intros Hf. induction l as [| a l IH]; [reflexivity |].
  rewrite bind_cons, length_app, IH, Hf. reflexivity.
Qed.

Lemma box_length (lo0 n0 n1 n2 : nat) :
  length (box lo0 n0 n1 n2) = (n0 * n1 * n2)%nat.
Proof.
  unfold box.
  rewrite (bind_length_const _ _ (n1 * n2)), length_seq; [lia |].
  intros i. rewrite (bind_length_const _ _ n2), length_seq; [lia |].
  intros j. rewrite (bind_length_const _ _ 1), length_seq; [lia |].
  reflexivity.
Qed.

(** All ranks hold slabs of the same shape. *)
Lemma slab_length (g : Geometry) (r : nat) :
  length (slab g r) = length (slab g 0).
Proof. unfold slab. rewrite !box_length. reflexivity. Qed.

Lemma slab_nonempty (g : Geometry) (r : nat) : slab g 0 <> [] -> slab g r <> [].
Proof.
  intros H0 Hr. apply H0. apply length_zero_iff_nil.
  rewrite <- (slab_length g r), Hr. reflexivity.
Qed.

Lemma global_max_ge (g : Geometry) (a : rarr) (m : R) :
  global_max g a = Ok m ->
  forall r x, (r < comm_size (comm g))%nat -> x ∈ slab g r -> a x <= m.
Proof.
  unfold global_max. intros H r x Hr Hx.
  destruct (np_max a (slab g 0)) as [m0 |] eqn:H0; [| discriminate].
  cbn [bind] in H. injection H as <-.
  assert (Hne : slab g 0 <> []).
  { intros Hn. rewrite Hn in H0. discriminate. }
  pose proof (slab_nonempty g r Hne) as Hner.
  destruct (np_max a (slab g r)) as [mr |] eqn:Hmr.
  - apply Rle_trans with mr; [apply (np_max_ge a (slab g r) mr Hmr x Hx) |].
    pose proof (allreduce_MAX_ge (comm_size (comm g))
                  (fun r => match np_max a (slab g r) with Ok m => m | Raise _ => 0 end)
                  r Hr) as Hall.
    cbv beta in Hall. rewrite Hmr in Hall. exact Hall.
  - exfalso. destruct (slab g r); [contradiction | discriminate].
Qed.

Lemma global_max_empty (g : Geometry) (a : rarr) :
  slab g 0 = [] -> exists msg, global_max g a = Raise (ValueError msg).
Proof.
  intros H. unfold global_max. rewrite H. eexists. reflexivity.
Qed.

(** ** The eddy viscosity and the resolved stress *)

Lemma trace_removed (a b c : R) :
  a - 1 / 3 * (a + b + c) + (b - 1 / 3 * (a + b + c)) + (c - 1 / 3 * (a + b + c)) = 0.
Proof. field. Qed.

Section Viscosity.

Context {E : Collaborators}.

(** The rate of strain is a symmetric tensor. *)
Lemma velocity_gradient_symmetric (g : Geometry) (W : cvector) (i j : nat) :
  velocity_gradient g 1 W i j = velocity_gradient g 1 W j i.
Proof.
  unfold velocity_gradient. apply functional_extensionality. intros x.
  f_equal. f_equal. apply functional_extensionality. intros p.
  unfold Cmul, Cadd, Cscale, Cj. cbn [fst snd]. f_equal; ring.
Qed.

(** X14. On a non-empty grid and with a non-negative Smagorinsky
    coefficient, [computeSource_Smagorinksy_SGS] returns with a symmetric
    rate of strain in [A], with [omga[0] = smag_coef*sqrt(2 S_ij S_ij)]
    non-negative, and with [nuTmax] an upper bound of [omga[0]] at every
    grid point of every rank. *)
Theorem Smagorinsky_viscosity_bound (self : state) (kwargs : gmap string pyval) :
  slab self 0 <> [] ->
  0 <= smag_coef self ->
  exists self',
    computeSource_Smagorinksy_SGS self kwargs = Ok self'
    /\ (forall i j, tens self' A i j = tens self' A j i)
    /\ (forall r x, (r < comm_size (comm self))%nat -> x ∈ slab self r ->
          0 <= rvec self' omga 0%nat x <= nuTmax self')
    /\ (forall x, rvec self' omga 0%nat x
                  = sqrt (2.0 * sum33 (fun a b => tens self' A a b x ^ 2))
                    * smag_coef self).
Proof.
  intros Hne Hc. unfold computeSource_Smagorinksy_SGS. reads.
  match goal with
  | |- context [global_max ?g ?a] =>
      destruct (global_max_returns g a Hne) as [m Hm];
      pose proof (global_max_ge g a m Hm) as Hge
  end.
  rewrite Hm. reads. eexists. split; [reflexivity |].
  unfold add_to_dU. reads. split; [| split].
  - intros i j. apply velocity_gradient_symmetric.
  - intros r x Hr Hx. cbn [upd Nat.eqb]. split.
    + apply Rmult_le_pos; [apply sqrt_pos | exact Hc].
    + apply (Hge r x Hr Hx).
  - intros x. reflexivity.
Qed.

(** X15. When there are more processes than planes along the first
    axis, every rank holds an empty slab ([nnx[0] = nx[0]//size = 0]):
    [np.max] has nothing to reduce, and both [new_dt_const_nu] and
    [computeSource_Smagorinksy_SGS] raise [ValueError]. *)
Theorem empty_slab_raises_ValueError (self : state) (comm : Comm)
    (nx : nat -> Z) (L : nat -> R) (nu : R) (cfl : R) (kwargs : gmap string pyval) :
  geom self = make_geometry comm nx L nu ->
  (0 <= nx 0%nat < Z.of_nat (comm_size comm))%Z ->
  (exists msg, new_dt_const_nu self cfl = Raise (ValueError msg))
  /\ (exists msg, computeSource_Smagorinksy_SGS self kwargs = Raise (ValueError msg)).
Proof.
  intros Hg Hnx.
  assert (Hs : slab self 0 = []).
  { rewrite Hg. unfold slab.
    change (nnx (make_geometry comm nx L nu) 0%nat)
      with (nx 0%nat / Z.of_nat (comm_size comm))%Z.
    rewrite Z.div_small by lia. reflexivity. }
  split.
  - unfold new_dt_const_nu.
    destruct (global_max_empty self (rvec self U 0%nat) Hs) as [msg ->].
    exists msg. reflexivity.
  - unfold computeSource_Smagorinksy_SGS. reads.
    match goal with
    | |- context [global_max ?g ?a] =>
        destruct (global_max_empty g a Hs) as [msg ->]
    end.
    exists msg. reflexivity.
Qed.

(** X16. [computeSource_DynamicSmagorinksy_SGS] returns with a resolved
    stress [L_dyn] that is symmetric and, once a third of its trace has
    been removed from the diagonal, trace-free; [M_dyn] and the test
    scale rate of strain left in [A] are symmetric. *)
Theorem dynamic_model_resolved_stress (self : state) (kwargs : gmap string pyval) :
  exists self',
    computeSource_DynamicSmagorinksy_SGS self kwargs = Ok self'
    /\ (forall x, tens self' L_dyn 0%nat 0%nat x + tens self' L_dyn 1%nat 1%nat x
                  + tens self' L_dyn 2%nat 2%nat x = 0)
    /\ (forall i j x, tens self' L_dyn i j x = tens self' L_dyn j i x)
    /\ (forall i j x, tens self' M_dyn i j x = tens self' M_dyn j i x)
    /\ (forall i j, tens self' A i j = tens self' A j i).
Proof.
  destruct self as [g ls lf ts tf ff fr c d dt sc nt rv cv tn rng].
  unfold computeSource_DynamicSmagorinksy_SGS. writes.
  eexists. split; [reflexivity |]. split; [| split; [| split]].
  - intros x. apply trace_removed.
  - intros i j x. rewrite (Nat.eqb_sym j i).
    assert (Hf : (fun y : idx => irfft3 (cv U_hat i) y * irfft3 (cv U_hat j) y)
                 = (fun y : idx => irfft3 (cv U_hat j) y * irfft3 (cv U_hat i) y)).
    { apply functional_extensionality. intros y. ring. }
    rewrite Hf. destruct (Nat.eqb i j); ring.
  - intros i j x. rewrite !(velocity_gradient_symmetric g _ i j). reflexivity.
  - intros i j. apply velocity_gradient_symmetric.
Qed.

(** X17. [computeAD_vorticity_formulation] overwrites the accumulator:
    what it leaves in [dU] depends neither on what [dU] held nor on the
    keyword arguments, and it writes neither [U_hat] nor [U].  The
    source terms add to [dU], so it has to be called before them. *)
Theorem computeAD_overwrites_dU (self : state) (kwargs : gmap string pyval) :
  exists self',
    computeAD_vorticity_formulation self kwargs = Ok self'
    /\ (forall d kwargs',
          exists self'',
            computeAD_vorticity_formulation (set_cvec self dU d) kwargs' = Ok self''
            /\ cvec self'' dU = cvec self' dU)
    /\ cvec self' U_hat = cvec self U_hat
    /\ rvec self' U = rvec self U.
Proof.
  eexists. split; [reflexivity |]. split; [| split].
  - intros d kwargs'. eexists. split; reflexivity.
  - reflexivity.
  - reflexivity.
Qed.

End Viscosity.

Lemma point_smag_coef (Lv nu_ eps : R) : 0 <= smag_coef (point_instance Lv nu_ eps).
Proof.
  destruct (__init___returns _ _ _ _ _ _ _ _ _ _ _ (point_instance_constructed Lv nu_ eps))
    as (nx3 & L3 & H). apply H.
Qed.

Lemma Smagorinsky_viscosity_bound_witness :
  exists self',
    computeSource_Smagorinksy_SGS spectral_only ∅ = Ok self'
    /\ (forall i j, tens self' A i j = tens self' A j i)
    /\ (forall r x, (r < comm_size (comm spectral_only))%nat -> x ∈ slab spectral_only r ->
          0 <= rvec self' omga 0%nat x <= nuTmax self')
    /\ (forall x, rvec self' omga 0%nat x
                  = sqrt (2.0 * sum33 (fun a b => tens self' A a b x ^ 2))
                    * smag_coef spectral_only).
Proof.
  apply (@Smagorinsky_viscosity_bound one_point spectral_only ∅).
  - discriminate.
  - apply (point_smag_coef 1 0.01 1).
Defined.

Lemma empty_slab_raises_ValueError_witness :
  (exists msg, new_dt_const_nu starved 1 = Raise (ValueError msg))
  /\ (exists msg, computeSource_Smagorinksy_SGS starved ∅ = Raise (ValueError msg)).
Proof.
  apply (@empty_slab_raises_ValueError one_point starved
           {| comm_size := 2; comm_rank := 0 |} (of_list3 0%Z [1; 1; 1]%Z)
           (of_list3 0 [1; 1; 1]) 0.01 1 ∅).
  - reflexivity.
  - cbn. lia.
Defined.

(** ** The limits that the time step honours *)

Lemma min3_le (v : nat -> R) (i : nat) : (i < 3)%nat -> min3 v <= v i.
Proof.
  intros Hi. unfold min3.
  pose proof (Rmin_l (v 0%nat) (Rmin (v 1%nat) (v 2%nat))).
  pose proof (Rmin_r (v 0%nat) (Rmin (v 1%nat) (v 2%nat))).
  pose proof (Rmin_l (v 1%nat) (v 2%nat)).
  pose proof (Rmin_r (v 1%nat) (v 2%nat)).
  destruct i as [| [| [| i]]]; [lra | lra | lra | lia].
Qed.

Lemma min3_pos (v : nat -> R) : (forall i, (i < 3)%nat -> 0 < v i) -> 0 < min3 v.
Proof.
  intros Hv. unfold min3.
  apply Rmin_glb_lt; [apply Hv; lia |]. apply Rmin_glb_lt; apply Hv; lia.
Qed.

Lemma dtMinHydro_le (cfl : R) (dx u : nat -> R) (i : nat) :
  0 < cfl -> (i < 3)%nat ->
  dtMinHydro cfl dx (u 0%nat) (u 1%nat) (u 2%nat) <= cfl * (dx i / u i).
Proof.
  intros Hc Hi. unfold dtMinHydro.
  apply Rmult_le_compat_l; [lra |].
  apply (min3_le (fun i => dx i / u i) i Hi).
Qed.

Section Limits.

Context {E : Collaborators}.

(** X18. With positive velocity maxima, grid spacings, CFL number and
    viscosity, the step that [new_dt_const_nu] returns is positive,
    keeps the Courant number [u_i*dt/dx_i] of every direction at or
    below [cfl], and keeps the diffusion numbers [2*nu*dt/min(dx)**2] at
    or below 1 and [nuTmax*dt/min(dx)**2] at or below [cfl]. *)
Theorem new_dt_const_nu_honours_the_limits (self : state) (cfl : R) (u : nat -> R) :
  (forall i, (i < 3)%nat -> global_max self (rvec self U i) = Ok (u i)) ->
  0 < cfl ->
  (forall i, (i < 3)%nat -> 0 < dx self i) ->
  (forall i, (i < 3)%nat -> 0 < u i) ->
  0 < nu self ->
  exists dt,
    new_dt_const_nu self cfl = Ok dt
    /\ 0 < dt
    /\ (forall i, (i < 3)%nat -> u i * dt / dx self i <= cfl)
    /\ 2 * nu self * dt <= min3 (dx self) ^ 2
    /\ nuTmax self * dt <= cfl * min3 (dx self) ^ 2.
Proof.
  intros Hu Hc Hdx Hup Hnu.
  eexists. split; [apply (new_dt_const_nu_value self cfl u Hu) |].
  set (h := dtMinHydro cfl (dx self) (u 0%nat) (u 1%nat) (u 2%nat)).
  set (d := dtMinDiff cfl (dx self) (nu self) (nuTmax self)).
  assert (Hm : 0 < min3 (dx self)) by (apply min3_pos; exact Hdx).
  assert (Hm2 : 0 < min3 (dx self) ^ 2) by (apply pow_lt; exact Hm).
  set (M := Rmax (2.0 * nu self) (nuTmax self / cfl)).
  assert (HM1 : 2 * nu self <= M)
    by (unfold M; pose proof (Rmax_l (2.0 * nu self) (nuTmax self / cfl)); lra).
  assert (HM2 : nuTmax self / cfl <= M) by apply Rmax_r.
  assert (HM : 0 < M) by lra.
  assert (Hd : d * M = min3 (dx self) ^ 2).
  { unfold d, dtMinDiff. fold M. field. lra. }
  assert (Hdpos : 0 < d).
  { unfold d, dtMinDiff. fold M. apply Rdiv_lt_0_compat; assumption. }
  assert (Hhpos : 0 < h).
  { unfold h, dtMinHydro. apply Rmult_lt_0_compat; [exact Hc |].
    apply (min3_pos (fun i => dx self i / u i)).
    intros i Hi. apply Rdiv_lt_0_compat; [apply Hdx | apply Hup]; exact Hi. }
  unfold dtMin. fold h d.
  pose proof (Rmin_l h d) as Hl. pose proof (Rmin_r h d) as Hr.
  assert (Hpos : 0 < Rmin h d) by (apply Rmin_glb_lt; assumption).
  split; [exact Hpos |]. split; [| split].
  - intros i Hi.
    pose proof (dtMinHydro_le cfl (dx self) u i Hc Hi) as Hi'. fold h in Hi'.
    pose proof (Hdx i Hi) as Hdxi. pose proof (Hup i Hi) as Hui.
    apply (Rmult_le_reg_r (dx self i / u i)).
    + apply Rdiv_lt_0_compat; assumption.
    + replace (u i * Rmin h d / dx self i * (dx self i / u i)) with (Rmin h d)
        by (field; lra).
      lra.
  - apply Rle_trans with (d * M); [| lra].
    apply Rle_trans with (d * (2 * nu self)); [| apply Rmult_le_compat_l; lra].
    rewrite (Rmult_comm d). apply Rmult_le_compat_l; lra.
  - destruct (Rle_dec 0 (nuTmax self)) as [Hn | Hn].
    + apply Rle_trans with (nuTmax self * d); [apply Rmult_le_compat_l; lra |].
      apply Rle_trans with (cfl * (d * M)); [| rewrite Hd; lra].
      replace (nuTmax self * d) with (cfl * (d * (nuTmax self / cfl))) by (field; lra).
      apply Rmult_le_compat_l; [lra |]. apply Rmult_le_compat_l; lra.
    + assert (nuTmax self * Rmin h d <= 0) by nra.
      assert (0 <= cfl * min3 (dx self) ^ 2) by nra.
      lra.
Qed.

(** X19. The estimate divides by the signed maxima [np.max(U[i])], not
    by the largest speed: when one velocity component is negative
    everywhere, so that its maximum is negative, the step returned is
    negative. *)
Theorem new_dt_const_nu_negative_for_backward_flow (self : state) (cfl : R)
    (u : nat -> R) (i : nat) :
  (forall i, (i < 3)%nat -> global_max self (rvec self U i) = Ok (u i)) ->
  0 < cfl ->
  (forall j, (j < 3)%nat -> 0 < dx self j /\ u j <> 0) ->
  0 < nu self ->
  (i < 3)%nat ->
  u i < 0 ->
  exists dt, new_dt_const_nu self cfl = Ok dt /\ dt < 0.
Proof.
  intros Hu Hc Hall _ Hi Hui.
  assert (Hdx : 0 < dx self i) by apply (Hall i Hi).
  eexists. split; [apply (new_dt_const_nu_value self cfl u Hu) |].
  unfold dtMin.
  apply Rle_lt_trans with (dtMinHydro cfl (dx self) (u 0%nat) (u 1%nat) (u 2%nat));
    [apply Rmin_l |].
  apply Rle_lt_trans with (cfl * (dx self i / u i));
    [apply dtMinHydro_le; assumption |].
  assert (dx self i / u i < 0).
  { unfold Rdiv. rewrite <- (Rmult_0_r (dx self i)).
    apply Rmult_lt_compat_l; [exact Hdx |]. apply Rinv_lt_0_compat. exact Hui. }
  nra.
Qed.

End Limits.

Lemma flow_spacing (nu_ nuT : R) (u : nat -> R) (i : nat) :
  (i < 3)%nat -> dx (flow nu_ nuT u) i = 1.
Proof.
  intros Hi. change (dx (flow nu_ nuT u) i) with (dx (point_instance 1 nu_ 1) i).
  destruct (point_instance_grid 1 nu_ 1) as (_ & _ & _ & _ & Hdx).
  rewrite (Hdx i Hi). field.
Qed.

Lemma new_dt_const_nu_honours_the_limits_witness :
  exists dt,
    new_dt_const_nu (flow 1 0 quarter) (1 / 2) = Ok dt
    /\ 0 < dt
    /\ (forall i, (i < 3)%nat -> quarter i * dt / dx (flow 1 0 quarter) i <= 1 / 2)
    /\ 2 * nu (flow 1 0 quarter) * dt <= min3 (dx (flow 1 0 quarter)) ^ 2
    /\ nuTmax (flow 1 0 quarter) * dt <= 1 / 2 * min3 (dx (flow 1 0 quarter)) ^ 2.
Proof.
  apply (@new_dt_const_nu_honours_the_limits one_point (flow 1 0 quarter) (1 / 2) quarter).
  - intros i _. apply flow_maxima.
  - lra.
  - intros i Hi. rewrite (flow_spacing 1 0 quarter i Hi). lra.
  - intros i _. unfold quarter. lra.
  - change (nu (flow 1 0 quarter)) with 1. lra.
Defined.

Lemma new_dt_const_nu_negative_for_backward_flow_witness :
  exists dt, new_dt_const_nu (flow 1 0 backward) (1 / 2) = Ok dt /\ dt < 0.
Proof.
  apply (@new_dt_const_nu_negative_for_backward_flow one_point (flow 1 0 backward)
           (1 / 2) backward 0%nat).
  - intros i _. apply flow_maxima.
  - lra.
  - intros [| [| [| j]]] Hj; try lia;
      (split; [rewrite (flow_spacing 1 0 backward _ Hj); lra | unfold backward; lra]).
  - change (nu (flow 1 0 backward)) with 1. lra.
  - lia.
  - unfold backward. lra.
Defined.

(** ** The Runge-Kutta driver and its evaluators *)

Lemma spectral_divergence_axpy (K : nat -> iarr) (F G : cvector) (c : R) (p : idx) :
  spectral_divergence K (fun i q => Cadd (F i q) (Cscale c (G i q))) p
  = Cadd (spectral_divergence K F p) (Cscale c (spectral_divergence K G p)).
Proof.
  unfold spectral_divergence, csum3, Cadd, Cscale. cbn [fst snd]. f_equal; ring.
Qed.

Section Stages.

Context {E : Collaborators}.

(** X20. None of the six evaluators of the class (the advection and
    diffusion term, the two forcing terms, the three subgrid-scale
    models) writes the grid, the LES filter, [U_hat], [U_hat0] or
    [U_hat1]: whenever one of them returns, these are as they were. *)
Theorem class_evaluators_keep_stage_registers :
  Forall keeps_stage_registers class_evaluators.
Proof.
  unfold class_evaluators.
  apply Forall_cons_2; [| apply Forall_cons_2; [| apply Forall_cons_2; [|
    apply Forall_cons_2; [| apply Forall_cons_2; [| apply Forall_cons_2; [|
    apply Forall_nil_2]]]]]]; unfold keeps_stage_registers; intros kw s s' H.
  - unfold computeAD_vorticity_formulation in H. injection H as <-.
    reads. repeat split; reflexivity.
  - unfold computeSource_HIT_random_forcing in H.
    destruct (kw !! "random_seed") as [rseed |]; [| discriminate].
    destruct (get_random_HIT_spectrum_frame s (-5 / 3) (IZR (nk s 2%nat)) rseed)
      as (Hg & Hv & Hf & Hff & Hc).
    unfold dvScale in H. revert H. reads. rewrite Hf.
    destruct (forcing_rate s); [| discriminate].
    reads. intros H. injection H as <-. reads.
    split; [exact Hg |]. split.
    + unfold get_random_HIT_spectrum.
      destruct (np_random_rand _) as [q1 rng1].
      destruct (np_random_randn _) as [q2 rng2]. reflexivity.
    + repeat split; apply Hc; discriminate.
  - unfold computeSource_HIT_linear_forcing, dvScale in H. revert H. reads.
    destruct (forcing_rate s); [| discriminate].
    reads. intros H. injection H as <-. reads. repeat split; reflexivity.
  - destruct s as [g ls lf ts tf ff fr c d dt sc nt rv cv tn rng].
    unfold computeSource_Smagorinksy_SGS in H. revert H. writes.
    match goal with
    | |- context [global_max ?g ?a] => destruct (global_max g a); [| discriminate]
    end.
    cbn [bind]. intros H. injection H as <-. repeat split; reflexivity.
  - destruct s as [g ls lf ts tf ff fr c d dt sc nt rv cv tn rng].
    unfold computeSourse_NonlinearModel_SGS in H.
    destruct (bool_decide (kw = ∅)); [| discriminate].
    revert H. writes. intros H. injection H as <-. repeat split; reflexivity.
  - destruct s as [g ls lf ts tf ff fr c d dt sc nt rv cv tn rng].
    unfold computeSource_DynamicSmagorinksy_SGS in H.
    revert H. writes. intros H. injection H as <-. repeat split; reflexivity.
Qed.

Lemma run_sources_keep (Sources : list callable) (kwargs : gmap string pyval)
    (s s' : state) :
  Forall keeps_stage_registers Sources ->
  run_sources Sources kwargs s = Ok s' ->
  geom s' = geom s /\ les_filter s' = les_filter s
  /\ cvec s' U_hat = cvec s U_hat
  /\ cvec s' U_hat0 = cvec s U_hat0
  /\ cvec s' U_hat1 = cvec s U_hat1.
Proof.
  intros HS. revert s. induction HS as [| f Sources Hf _ IH]; intros s H.
  - injection H as <-. repeat split; reflexivity.
  - cbn [run_sources] in H.
    destruct (f kwargs s) as [s1 |] eqn:H1; [| discriminate].
    cbn [bind] in H.
    destruct (Hf kwargs s s1 H1) as (Hg & Hl & Hu & Hu0 & Hu1).
    destruct (IH s1 H) as (Hg' & Hl' & Hu' & Hu0' & Hu1').
    rewrite Hg', Hl', Hu', Hu0', Hu1'. repeat split; assumption.
Qed.

(** One stage, seen from the registers of the driver: the stage leaves
    in [dU] a projected field, writes [U_hat0 + b*dt*dU] to [U_hat]
    (before the last stage) and adds [a*dt*dU] to [U_hat1]. *)
Lemma RK4_stage_registers (o : solver) (dt : R) (Sources : list callable)
    (kwargs : gmap string pyval) (rk : nat) (f : callable) (s s' : state) :
  bound o !! "computeAD" = Some f ->
  keeps_stage_registers f ->
  Forall keeps_stage_registers Sources ->
  RK4_stage o dt Sources kwargs rk s = Ok s' ->
  geom s' = geom s /\ les_filter s' = les_filter s
  /\ cvec s' U_hat0 = cvec s U_hat0
  /\ exists F : cvector,
       cvec s' dU = project (K s) (K_Ksq s) F
       /\ cvec s' U_hat
          = (if (rk <? 3)%nat then
               fun i p => Cadd (cvec s U_hat0 i p)
                               (Cscale (nth rk b_rk 0 * dt) (cvec s' dU i p))
             else cvec s U_hat)
       /\ cvec s' U_hat1
          = fun i p => Cadd (cvec s U_hat1 i p)
                            (Cscale (nth rk a_rk 0 * dt) (cvec s' dU i p)).
Proof.
  intros Hb Hf HS H. unfold RK4_stage in H.
  rewrite (getattr_bound o "computeAD" f Hb) in H. cbn [bind call0] in H.
  destruct (f ∅ (refresh_U s)) as [s1 |] eqn:H1; [| discriminate].
  cbn [bind] in H.
  destruct (run_sources Sources kwargs s1) as [s2 |] eqn:H2; [| discriminate].
  cbn [bind] in H.
  destruct (Hf ∅ (refresh_U s) s1 H1) as (Hg1 & Hl1 & Hu1 & Hu01 & Hu11).
  destruct (run_sources_keep Sources kwargs s1 s2 HS H2)
    as (Hg2 & Hl2 & Hu2 & Hu02 & Hu12).
  change (geom (refresh_U s)) with (geom s) in Hg1.
  change (les_filter (refresh_U s)) with (les_filter s) in Hl1.
  change (cvec (refresh_U s)) with (cvec s) in Hu1, Hu01, Hu11.
  injection H as <-.
  destruct (rk <? 3)%nat; reads;
    (split; [congruence |]); (split; [congruence |]); (split; [congruence |]);
    exists (fun i p => Cmul (cvec s2 dU i p) (les_filter s2 p));
    rewrite ?Hg2, ?Hg1, ?Hu02, ?Hu01, ?Hu12, ?Hu11, ?Hu2, ?Hu1;
    repeat split; reflexivity.
Qed.

(** A property that every stage preserves holds after the four
    stages. *)
Lemma RK4_stages_preserve (o : solver) (dt : R) (Sources : list callable)
    (kwargs : gmap string pyval) (P : state -> Prop) :
  (forall rk s s', P s -> RK4_stage o dt Sources kwargs rk s = Ok s' -> P s') ->
  forall rks s s', P s -> RK4_stages o dt Sources kwargs rks s = Ok s' -> P s'.
Proof.
  intros Hstep rks. induction rks as [| rk rks IH]; intros s s' HP H.
  - injection H as <-. exact HP.
  - cbn [RK4_stages] in H.
    destruct (RK4_stage o dt Sources kwargs rk s) as [s1 |] eqn:H1; [| discriminate].
    cbn [bind] in H. apply (IH s1 s' (Hstep rk s s1 HP H1) H).
Qed.

(** The driver returns whenever [computeAD] is bound and every
    evaluator returns. *)
Lemma RK4_integrate_returns (o : solver) (dt : R) (Sources : list callable)
    (kwargs : gmap string pyval) (f : callable) :
  bound o !! "computeAD" = Some f ->
  always_returns f ->
  Forall always_returns Sources ->
  exists o', RK4_integrate o dt Sources kwargs = Ok o'.
Proof.
  intros Hb Hf HS.
  assert (Hrun : forall s, exists s', run_sources Sources kwargs s = Ok s').
  { induction HS as [| g Sources Hg _ IH]; intros s; [eexists; reflexivity |].
    cbn [run_sources]. destruct (Hg kwargs s) as [s1 ->]. cbn [bind]. apply IH. }
  assert (Hstage : forall rk s, exists s', RK4_stage o dt Sources kwargs rk s = Ok s').
  { intros rk s. unfold RK4_stage.
    rewrite (getattr_bound o "computeAD" f Hb). cbn [bind call0].
    destruct (Hf ∅ (refresh_U s)) as [s1 ->]. cbn [bind].
    destruct (Hrun s1) as [s2 ->]. cbn [bind]. eexists. reflexivity. }
  unfold RK4_integrate. cbv zeta. cbn [RK4_stages].
  match goal with
  | |- context [RK4_stage o dt Sources kwargs 0 ?s] =>
      destruct (Hstage 0%nat s) as [s1 ->]
  end.
  cbn [bind]. destruct (Hstage 1%nat s1) as [s2 ->].
  cbn [bind]. destruct (Hstage 2%nat s2) as [s3 ->].
  cbn [bind]. destruct (Hstage 3%nat s3) as [s4 ->].
  cbn [bind]. eexists. reflexivity.
Qed.

(** X21. With [computeAD] bound to an evaluator that keeps the
    registers, and source terms that do, a call of [RK4_integrate] that
    returns from a divergence-free velocity leaves the velocity
    divergence-free: the returned [U_hat], the accumulated sum [U_hat1]
    and the last right-hand side [dU] all satisfy
    [sum_axis K[axis]*F[axis] = 0] at every mode; [U_hat0] holds the
    velocity the call started from. *)
Theorem RK4_integrate_keeps_velocity_solenoidal (o o' : solver) (dt : R)
    (Sources : list callable) (kwargs : gmap string pyval) (f : callable) :
  bound o !! "computeAD" = Some f ->
  keeps_stage_registers f ->
  Forall keeps_stage_registers Sources ->
  K_Ksq (self_ o) = make_K_Ksq (K (self_ o)) ->
  (forall p, spectral_divergence (K (self_ o)) (cvec (self_ o) U_hat) p = RtoC 0) ->
  RK4_integrate o dt Sources kwargs = Ok o' ->
  geom (self_ o') = geom (self_ o)
  /\ bound o' = bound o
  /\ cvec (self_ o') U_hat0 = cvec (self_ o) U_hat
  /\ (forall p, spectral_divergence (K (self_ o)) (cvec (self_ o') U_hat) p = RtoC 0)
  /\ (forall p, spectral_divergence (K (self_ o)) (cvec (self_ o') U_hat1) p = RtoC 0)
  /\ (forall p, spectral_divergence (K (self_ o)) (cvec (self_ o') dU) p = RtoC 0).
Proof.
  intros Hb Hf HS HK Hdiv H. unfold RK4_integrate in H. cbv zeta in H.
  match type of H with
  | context [RK4_stages o dt Sources kwargs ?rks ?s0] =>
      destruct (RK4_stages o dt Sources kwargs rks s0) as [s4 |] eqn:H4;
      [| discriminate];
      set (start := s0) in *
  end.
  cbn [bind] in H. injection H as <-. cbn [self_ bound].
  change (geom (refresh_U s4)) with (geom s4).
  change (cvec (refresh_U s4)) with (cvec s4).
  set (g := geom (self_ o)) in *.
  set (P := fun s : state =>
              geom s = g /\ cvec s U_hat0 = cvec (self_ o) U_hat
              /\ (forall p, spectral_divergence (K g) (cvec s U_hat) p = RtoC 0)
              /\ (forall p, spectral_divergence (K g) (cvec s U_hat1) p = RtoC 0)).
  assert (Hstart : P start).
  { unfold P, start. reads. repeat split; try reflexivity; exact Hdiv. }
  assert (Hstep : forall rk s s', P s -> RK4_stage o dt Sources kwargs rk s = Ok s' ->
                    P s' /\ (forall p, spectral_divergence (K g) (cvec s' dU) p = RtoC 0)).
  { intros rk s s' (Hg & H0 & Hu & Hu1) Hs.
    destruct (RK4_stage_registers o dt Sources kwargs rk f s s' Hb Hf HS Hs)
      as (Hg' & _ & H0' & F & HdU & HU & HU1).
    assert (Hd : forall p, spectral_divergence (K g) (cvec s' dU) p = RtoC 0).
    { intros p. rewrite HdU, Hg. fold g. unfold g at 2. rewrite HK.
      apply project_divergence. }
    split; [| exact Hd].
    unfold P. split; [congruence |]. split; [congruence |]. split.
    - intros p. rewrite HU. destruct (rk <? 3)%nat; [| apply Hu].
      rewrite spectral_divergence_axpy, Hd, H0.
      rewrite Hdiv. unfold Cadd, Cscale, RtoC. cbn [fst snd]. f_equal; ring.
    - intros p. rewrite HU1, spectral_divergence_axpy, Hd, Hu1.
      unfold Cadd, Cscale, RtoC. cbn [fst snd]. f_equal; ring. }
  assert (Hlast : P s4 /\ (forall p, spectral_divergence (K g) (cvec s4 dU) p = RtoC 0)).
  { cbn [RK4_stages] in H4.
    destruct (RK4_stage o dt Sources kwargs 0 start) as [s1 |] eqn:E1; [| discriminate].
    cbn [bind] in H4.
    destruct (RK4_stage o dt Sources kwargs 1 s1) as [s2 |] eqn:E2; [| discriminate].
    cbn [bind] in H4.
    destruct (RK4_stage o dt Sources kwargs 2 s2) as [s3 |] eqn:E3; [| discriminate].
    cbn [bind] in H4.
    destruct (RK4_stage o dt Sources kwargs 3 s3) as [s4' |] eqn:E4; [| discriminate].
    cbn [bind] in H4. injection H4 as <-.
    apply (Hstep 3%nat s3 s4'); [| exact E4].
    apply (Hstep 2%nat s2 s3); [| exact E3].
    apply (Hstep 1%nat s1 s2); [| exact E2].
    apply (Hstep 0%nat start s1); [exact Hstart | exact E1]. }
  destruct Hlast as ((Hg4 & H04 & Hu4 & Hu14) & Hd4).
  repeat split; assumption.
Qed.

(** X22. Under the same conditions on the evaluators, a call with
    [dt = 0] that returns has changed nothing in the velocity: [U_hat]
    and [U_hat1] hold the spectral velocity the call started from, and
    [U] is its inverse transform. *)
Theorem RK4_integrate_zero_step (o o' : solver) (Sources : list callable)
    (kwargs : gmap string pyval) (f : callable) :
  bound o !! "computeAD" = Some f ->
  keeps_stage_registers f ->
  Forall keeps_stage_registers Sources ->
  RK4_integrate o 0 Sources kwargs = Ok o' ->
  cvec (self_ o') U_hat = cvec (self_ o) U_hat
  /\ cvec (self_ o') U_hat1 = cvec (self_ o) U_hat
  /\ (forall i, rvec (self_ o') U i = irfft3 (cvec (self_ o) U_hat i)).
Proof.
  intros Hb Hf HS H. unfold RK4_integrate in H. cbv zeta in H.
  match type of H with
  | context [RK4_stages o 0 Sources kwargs ?rks ?s0] =>
      destruct (RK4_stages o 0 Sources kwargs rks s0) as [s4 |] eqn:H4;
      [| discriminate];
      set (start := s0) in *
  end.
  cbn [bind] in H. injection H as <-. cbn [self_].
  set (P := fun s : state =>
              cvec s U_hat0 = cvec (self_ o) U_hat
              /\ cvec s U_hat = cvec (self_ o) U_hat
              /\ cvec s U_hat1 = cvec (self_ o) U_hat).
  assert (Hzero : forall (c : R) (F G : cvector),
             (fun i p => Cadd (F i p) (Cscale (c * 0) (G i p))) = F).
  { intros c F G. apply functional_extensionality. intros i.
    apply functional_extensionality. intros p.
    unfold Cadd, Cscale. destruct (F i p) as [x y]. cbn [fst snd]. f_equal; ring. }
  assert (Hend : P s4).
  { apply (RK4_stages_preserve o 0 Sources kwargs P) with (3 := H4).
    - intros rk s s' (H0 & Hu & Hu1) Hs.
      destruct (RK4_stage_registers o 0 Sources kwargs rk f s s' Hb Hf HS Hs)
        as (_ & _ & H0' & F & _ & HU & HU1).
      unfold P. split; [congruence |]. split.
      + rewrite HU. destruct (rk <? 3)%nat; [| exact Hu].
        rewrite Hzero. exact H0.
      + rewrite HU1, Hzero. exact Hu1.
    - unfold P, start. reads. repeat split; reflexivity. }
  destruct Hend as (_ & Hu & Hu1).
  change (cvec (refresh_U s4)) with (cvec s4).
  split; [exact Hu |]. split; [exact Hu1 |].
  intros i. unfold refresh_U. reads. rewrite Hu. reflexivity.
Qed.

(** X23. The random forcing needs the keyword argument [random_seed];
    the nonlinear model accepts no keyword argument; the driver passes
    the same keyword arguments to every source term.  So no call of
    [RK4_integrate] that is given both source terms returns, in either
    order and whatever the instance, the time step and the keyword
    arguments. *)
Theorem random_forcing_excludes_nonlinear_model (o : solver) (dt : R)
    (kwargs : gmap string pyval) :
  (exists e,
     RK4_integrate o dt
       [fun kw self => computeSource_HIT_random_forcing self kw;
        fun kw self => computeSourse_NonlinearModel_SGS self kw] kwargs = Raise e)
  /\ (exists e,
        RK4_integrate o dt
          [fun kw self => computeSourse_NonlinearModel_SGS self kw;
           fun kw self => computeSource_HIT_random_forcing self kw] kwargs = Raise e).
Proof.
  split; unfold RK4_integrate; cbv zeta; cbn [RK4_stages]; unfold RK4_stage;
    destruct (getattr o "computeAD") as [ad |]; cbn [bind];
    try (eexists; reflexivity);
    destruct (call0 ad _) as [s1 |]; cbn [bind run_sources];
    try (eexists; reflexivity).
  - destruct (computeSource_HIT_random_forcing s1 kwargs) as [s2 |] eqn:Hf;
      cbn [bind]; [| eexists; reflexivity].
    assert (Hk : kwargs <> ∅).
    { intros ->. unfold computeSource_HIT_random_forcing in Hf.
      rewrite lookup_empty in Hf. discriminate. }
    unfold computeSourse_NonlinearModel_SGS at 1.
    rewrite bool_decide_eq_false_2 by exact Hk.
    eexists. reflexivity.
  - unfold computeSourse_NonlinearModel_SGS at 1.
    destruct (decide (kwargs = ∅)) as [-> | Hk].
    + rewrite bool_decide_eq_true_2 by reflexivity. cbn [bind].
      unfold computeSource_HIT_random_forcing at 1. rewrite lookup_empty.
      eexists. reflexivity.
    + rewrite bool_decide_eq_false_2 by exact Hk. eexists. reflexivity.
Qed.

End Stages.

(** *** The diffusing shear wave once more *)

Lemma computeAD_always_returns {E : Collaborators} :
  always_returns (fun kw self => computeAD_vorticity_formulation self kw).
Proof. intros kw s. eexists. reflexivity. Qed.

Lemma computeAD_keeps_stage_registers {E : Collaborators} :
  keeps_stage_registers (fun kw self => computeAD_vorticity_formulation self kw).
Proof.
  intros kw s s' H. unfold computeAD_vorticity_formulation in H. injection H as <-.
  reads. repeat split; reflexivity.
Qed.

Lemma shear_wave_solenoidal (nu_ : R) (p : idx) :
  spectral_divergence (K (self_ (diffusing nu_))) (cvec (self_ (diffusing nu_)) U_hat) p
  = RtoC 0.
Proof.
  unfold spectral_divergence, csum3. cbn [self_ diffusing]. reads.
  destruct p as [[[| i] [| j]] [| [| k]]];
    unfold shear_wave, Cadd, Cscale, RtoC; cbn [fst snd]; try (f_equal; ring).
  change (K (pair_instance nu_ 1) 0%nat (0, 0, 1)%nat) with 0%Z.
  f_equal; ring.
Qed.

Lemma RK4_integrate_keeps_velocity_solenoidal_witness :
  exists o',
    RK4_integrate (diffusing 1) 1 [] ∅ = Ok o'
    /\ geom (self_ o') = geom (self_ (diffusing 1))
    /\ bound o' = bound (diffusing 1)
    /\ cvec (self_ o') U_hat0 = cvec (self_ (diffusing 1)) U_hat
    /\ (forall p, spectral_divergence (K (self_ (diffusing 1))) (cvec (self_ o') U_hat) p
                  = RtoC 0)
    /\ (forall p, spectral_divergence (K (self_ (diffusing 1))) (cvec (self_ o') U_hat1) p
                  = RtoC 0)
    /\ (forall p, spectral_divergence (K (self_ (diffusing 1))) (cvec (self_ o') dU) p
                  = RtoC 0).
Proof.
  destruct (@RK4_integrate_returns two_point (diffusing 1) 1 [] ∅ _ eq_refl
              computeAD_always_returns (Forall_nil_2 _)) as [o' Ho'].
  exists o'. split; [exact Ho' |].
  apply (@RK4_integrate_keeps_velocity_solenoidal two_point (diffusing 1) o' 1 [] ∅ _
           eq_refl computeAD_keeps_stage_registers (Forall_nil_2 _) eq_refl
           (shear_wave_solenoidal 1) Ho').
Defined.

Lemma RK4_integrate_zero_step_witness :
  exists o',
    RK4_integrate (diffusing 1) 0 [] ∅ = Ok o'
    /\ cvec (self_ o') U_hat = cvec (self_ (diffusing 1)) U_hat
    /\ cvec (self_ o') U_hat1 = cvec (self_ (diffusing 1)) U_hat
    /\ (forall i, rvec (self_ o') U i
                  = @irfft3 two_point (cvec (self_ (diffusing 1)) U_hat i)).
Proof.
  destruct (@RK4_integrate_returns two_point (diffusing 1) 0 [] ∅ _ eq_refl
              computeAD_always_returns (Forall_nil_2 _)) as [o' Ho'].
  exists o'. split; [exact Ho' |].
  apply (@RK4_integrate_zero_step two_point (diffusing 1) o' [] ∅ _
           eq_refl computeAD_keeps_stage_registers (Forall_nil_2 _) Ho').
Defined.
(** ** The models on one process and the rate of rotation *)

Section Models.

Context {E : Collaborators}.

(** X24. [computeSourse_NonlinearModel_SGS] takes no keyword argument:
    called with any, it raises [TypeError].  Called without, it returns
    with a symmetric rate of strain in [A] and, the inverse transform
    being linear, an antisymmetric rate of rotation in [R]. *)
Theorem nonlinear_model_tensors (self : state) :
  irfft3_homogeneous ->
  (exists self',
     computeSourse_NonlinearModel_SGS self ∅ = Ok self'
     /\ (forall i j, tens self' A i j = tens self' A j i)
     /\ (forall i j x, tens self' R_ i j x = - tens self' R_ j i x))
  /\ (forall kwargs, kwargs <> ∅ ->
        exists msg, computeSourse_NonlinearModel_SGS self kwargs = Raise (TypeError msg)).
Proof.
  intros Hlin. split.
  - destruct self as [g ls lf ts tf ff fr c d dt sc nt rv cv tn rng].
    unfold computeSourse_NonlinearModel_SGS.
    rewrite bool_decide_eq_true_2 by reflexivity. writes.
    eexists. split; [reflexivity |]. split.
    + intros i j. apply velocity_gradient_symmetric.
    + intros i j x. unfold velocity_gradient.
      match goal with
      | |- 0.5 * irfft3 ?f x = - (0.5 * irfft3 ?h x) =>
          assert (Hf : f = fun p => Cscale (-1) (h p))
      end.
      { apply functional_extensionality. intros p.
        unfold Cmul, Cadd, Cscale, Cj. cbn [fst snd]. f_equal; ring. }
      rewrite Hf, Hlin. ring.
  - intros kwargs Hk. unfold computeSourse_NonlinearModel_SGS.
    rewrite bool_decide_eq_false_2 by exact Hk. eexists. reflexivity.
Qed.

End Models.

Lemma nonlinear_model_tensors_witness :
  (exists self',
     computeSourse_NonlinearModel_SGS spectral_only ∅ = Ok self'
     /\ (forall i j, tens self' A i j = tens self' A j i)
     /\ (forall i j x, tens self' R_ i j x = - tens self' R_ j i x))
  /\ (forall kwargs, kwargs <> ∅ ->
        exists msg,
          computeSourse_NonlinearModel_SGS spectral_only kwargs = Raise (TypeError msg)).
Proof.
  apply (@nonlinear_model_tensors one_point spectral_only one_point_homogeneous).
Defined.

Lemma allreduce_SUM_one (v : nat -> R) : allreduce_SUM 1 v = v 0%nat.
Proof. unfold allreduce_SUM. cbn [seq fold_right]. ring. Qed.

(** X25. On one process the slab is the whole grid, so the local means
    of [computeSource_DynamicSmagorinksy_SGS] are the means over the
    domain and the coefficient is the ratio of the domain averages. *)
Theorem dynamic_coefficient_on_one_process
    (c : Comm) (nx : nat -> Z) (L : nat -> R) (nu : R) (L_dyn' M_dyn' : tensor) :
  comm_size c = 1%nat ->
  (forall a, (a < 3)%nat -> (0 <= nx a)%Z) ->
  let g := make_geometry c nx L nu in
  C_s_sqr g L_dyn' M_dyn' 0 = C_s_sqr_global g L_dyn' M_dyn'.
Proof.
  intros Hone Hnx g.
  pose proof (Hnx 0%nat ltac:(lia)) as H0.
  pose proof (Hnx 1%nat ltac:(lia)) as H1.
  pose proof (Hnx 2%nat ltac:(lia)) as H2.
  assert (Hlen : INR (length (slab g 0)) = IZR (Nx g)).
  { unfold slab. rewrite box_length.
    change (nnx g 0%nat) with (nx 0%nat / Z.of_nat (comm_size c))%Z.
    change (nnx g 1%nat) with (nx 1%nat).
    change (nnx g 2%nat) with (nx 2%nat).
    change (Nx g) with (nx 0%nat * nx 1%nat * nx 2%nat)%Z.
    rewrite Hone, Z.div_1_r.
    rewrite INR_IZR_INZ, !Nat2Z.inj_mul, !Z2Nat.id by assumption. reflexivity. }
  unfold C_s_sqr, C_s_sqr_global, np_mean, global_sum.
  change (comm_size (comm g)) with (comm_size c).
  rewrite Hone, !allreduce_SUM_one, Hlen. reflexivity.
Qed.

Lemma dynamic_coefficient_on_one_process_witness :
  let g := make_geometry COMM_SELF (of_list3 0%Z [2; 2; 1]%Z) (of_list3 0 [1; 1; 1]) 0.01 in
  C_s_sqr g (shear stress_by_plane) (shear (fun _ => 1)) 0
  = C_s_sqr_global g (shear stress_by_plane) (shear (fun _ => 1)).
Proof.
  apply (dynamic_coefficient_on_one_process COMM_SELF (of_list3 0%Z [2; 2; 1]%Z)
           (of_list3 0 [1; 1; 1]) 0.01).
  - reflexivity.
  - intros [| [| [| a]]] Ha; cbn; lia.
Defined.

(** ** Who writes the turbulent viscosity *)

Section EddyViscosity.

Context {E : Collaborators}.

(** X26. Only the Smagorinsky model updates [nuTmax], the turbulent
    viscosity that the time-step estimate reads: it stores the global
    maximum of [omga[0]] there.  The advection and diffusion term, the
    forcing terms, the nonlinear model and the dynamic model return
    with [nuTmax] as it was. *)
Theorem nuTmax_is_written_by_Smagorinsky_only :
  Forall (fun f : callable => forall kw s s', f kw s = Ok s' -> nuTmax s' = nuTmax s)
    [fun kw self => computeAD_vorticity_formulation self kw;
     fun kw self => computeSource_HIT_random_forcing self kw;
     fun kw self => computeSource_HIT_linear_forcing self kw;
     fun kw self => computeSourse_NonlinearModel_SGS self kw;
     fun kw self => computeSource_DynamicSmagorinksy_SGS self kw]
  /\ (forall kw s s',
        computeSource_Smagorinksy_SGS s kw = Ok s' ->
        global_max s (rvec s' omga 0%nat) = Ok (nuTmax s')).
Proof.
  split.
  - apply Forall_cons_2; [| apply Forall_cons_2; [| apply Forall_cons_2; [|
      apply Forall_cons_2; [| apply Forall_cons_2; [| apply Forall_nil_2]]]]];
      intros kw s s' H.
    + unfold computeAD_vorticity_formulation in H. injection H as <-. reflexivity.
    + unfold computeSource_HIT_random_forcing in H.
      destruct (kw !! "random_seed") as [rseed |]; [| discriminate].
      unfold dvScale in H. revert H. reads.
      rewrite (proj1 (proj2 (proj2 (get_random_HIT_spectrum_frame s _ _ rseed)))).
      destruct (forcing_rate s); [| discriminate].
      reads. intros H. injection H as <-. reads.
      unfold get_random_HIT_spectrum.
      destruct (np_random_rand _) as [q1 rng1].
      destruct (np_random_randn _) as [q2 rng2]. reflexivity.
    + unfold computeSource_HIT_linear_forcing, dvScale in H. revert H. reads.
      destruct (forcing_rate s); [| discriminate].
      reads. intros H. injection H as <-. reflexivity.
    + destruct s as [g ls lf ts tf ff fr c d dt sc nt rv cv tn rng].
      unfold computeSourse_NonlinearModel_SGS in H.
      destruct (bool_decide (kw = ∅)); [| discriminate].
      revert H. writes. intros H. injection H as <-. reflexivity.
    + destruct s as [g ls lf ts tf ff fr c d dt sc nt rv cv tn rng].
      unfold computeSource_DynamicSmagorinksy_SGS in H.
      revert H. writes. intros H. injection H as <-. reflexivity.
  - intros kw s s' H.
    destruct s as [g ls lf ts tf ff fr c d dt sc nt rv cv tn rng].
    unfold computeSource_Smagorinksy_SGS in H. revert H. writes.
    match goal with
    | |- context [global_max ?g ?a] => destruct (global_max g a) as [m |] eqn:Hm;
                                        [| discriminate]
    end.
    cbn [bind]. intros H. injection H as <-. cbn [upd Nat.eqb]. exact Hm.
Qed.

End EddyViscosity.

(** *** The evaluators on the one-point instance *)

Lemma nuTmax_is_written_by_Smagorinsky_only_witness :
  exists s',
    computeSource_Smagorinksy_SGS spectral_only ∅ = Ok s'
    /\ global_max spectral_only (rvec s' omga 0%nat) = Ok (nuTmax s').
Proof.
  eexists. split; [reflexivity |].
  apply (proj2 (@nuTmax_is_written_by_Smagorinsky_only one_point) ∅ spectral_only).
  reflexivity.
Defined.

Lemma class_evaluators_keep_stage_registers_witness :
  exists s',
    computeAD_vorticity_formulation spectral_only ∅ = Ok s'
    /\ geom s' = geom spectral_only /\ les_filter s' = les_filter spectral_only
    /\ cvec s' U_hat = cvec spectral_only U_hat
    /\ cvec s' U_hat0 = cvec spectral_only U_hat0
    /\ cvec s' U_hat1 = cvec spectral_only U_hat1.
Proof.
  eexists. split; [reflexivity |].
  pose proof (@class_evaluators_keep_stage_registers one_point) as H.
  unfold class_evaluators in H. apply Forall_cons in H as [H _].
  apply (H ∅ spectral_only). reflexivity.
Defined.
